(** * Lohnjournal parser: a shallow embedding of [lohnjournal_parser.py]

    The development follows the Python module top-down: the numeric helper
    [parse_german_number], the column tables, and the three methods of
    [CoordinateLohnjournalParser] that build the employee records
    ([_set_field], [_parse_row], [_parse_page]) together with [parse].

    Conventions of the model.
    - Token text is a [string]; its characters are the code points below
      256.  White space and digits are those of ASCII: the five code points
      beyond ASCII that Python counts as white space (U+0085, U+00A0) or as
      digits of [str.isdigit] (U+00B2, U+00B3, U+00B9) are taken not to
      occur in a text.
    - Coordinates ([x0], [top]) are rationals: every finite double is one,
      and the parser only compares them with integer constants and rounds
      [top / 2] to the nearest integer.
    - An amount is the exact rational [n / 100]; the Python value is the
      double nearest to it, finite for every digit run of up to some three
      hundred digits.
    - The optional attributes of [EmployeeRecord] are a finite map from the
      attribute name to its value, an absent key standing for [None].
    - [_extract_metadata] fills [self.metadata] only and is left out: the
      list of records that [parse] returns does not depend on it. *)

From Stdlib Require Import ZArith QArith Qround Ascii String List Bool Lia Lqa.
From Stdlib Require Import Sorted Permutation.
From stdpp Require Import base list strings gmap.
Import ListNotations.

Local Open Scope string_scope.
Local Open Scope list_scope.
Local Open Scope Z_scope.

(** ** Character classes and the string methods the parser calls *)

Module Py.

(** [str.isspace] on one character: TAB..CR, FS..US and the blank. *)
Definition is_space (c : ascii) : bool :=
  let n := Z.of_N (N_of_ascii c) in
  ((9 <=? n) && (n <=? 13)) || ((28 <=? n) && (n <=? 32)).

(** the class [\d] and [str.isdigit] on one character *)
Definition is_decimal (c : ascii) : bool :=
  let n := Z.of_N (N_of_ascii c) in (48 <=? n) && (n <=? 57).

Definition digit_value (c : ascii) : Z := Z.of_N (N_of_ascii c) - 48.

Fixpoint lstrip (l : list ascii) : list ascii :=
  match l with
  | c :: l' => if is_space c then lstrip l' else l
  | [] => []
  end.

Definition rstrip (l : list ascii) : list ascii := rev (lstrip (rev l)).

(** [s.strip()] *)
Definition strip (l : list ascii) : list ascii := rstrip (lstrip l).

(** [s.isdigit()]: at least one character and only digits *)
Definition isdigit (l : list ascii) : bool :=
  match l with
  | [] => false
  | _ => forallb is_decimal l
  end.

(** [int(s)] on a run of digits, most significant digit first *)
Definition int_of (l : list ascii) : Z :=
  fold_left (fun acc c => 10 * acc + digit_value c) l 0.

(** [s.replace(c, '')] for a one-character [c] *)
Definition remove_char (c : ascii) (l : list ascii) : list ascii :=
  List.filter (fun d => negb (Ascii.eqb d c)) l.

(** [sep.join(parts)] *)
Fixpoint join (sep : string) (parts : list string) : string :=
  match parts with
  | [] => ""
  | [p] => p
  | p :: rest => (p ++ sep ++ join sep rest)%string
  end.

(** [s.endswith(c)] for a one-character [c] *)
Definition endswith (l : list ascii) (c : ascii) : bool :=
  match rev l with
  | d :: _ => Ascii.eqb d c
  | [] => false
  end.

(** [needle in hay] on strings *)
Fixpoint contains (needle hay : string) : bool :=
  String.prefix needle hay ||
  match hay with
  | EmptyString => false
  | String _ hay' => contains needle hay'
  end.

(** [x in (a, b, ...)] and [x in {a, b, ...}] on strings *)
Definition str_in (x : string) (xs : list string) : bool :=
  existsb (String.eqb x) xs.

End Py.

Abbreviation chars := list_ascii_of_string.
Abbreviation str := string_of_list_ascii.

(** ** [parse_german_number] *)

Definition parse_german_number (value : string) : option Q :=
  if String.eqb value "" || Py.str_in (str (Py.strip (chars value))) [""; "Z"; "E"]
  then None
  else
    let value := Py.strip (chars value) in
    let is_negative := Py.endswith value "-"%char in
    let value := if is_negative then removelast value else value in
    let value := List.filter Py.is_decimal value in
    match value with
    | [] => None
    | _ =>
        let result :=
          if (2 <? Z.of_nat (length value))
          then Qmake (Py.int_of value) 100
          else Qmake (Py.int_of value) 100 in
        Some (if is_negative then Qopp result else result)
    end.

(** ** Data model *)

(** One entry of [page.extract_words(...)]: the dictionary keys the parser
    reads. *)
Record word := Word { text : string; x0 : Q; top : Q }.

(** A value stored in an optional attribute: [str], [float] or [int]. *)
Inductive value :=
| VStr (s : string)
| VFloat (q : Q)
| VInt (n : Z).

(** The dataclass [EmployeeRecord].  [attrs] holds the attributes declared
    [Optional[...] = None]. *)
Record EmployeeRecord := Employee {
  pers_nr : string;
  name : string;
  attrs : gmap string value;
  sub_row_codes : list string;
  raw_lines : list string;
}.

(** [EmployeeRecord(pers_nr=first)] *)
Definition new_record (first : string) : EmployeeRecord :=
  Employee first "" ∅ [] [].

Definition setattr (emp : EmployeeRecord) (field : string) (v : value)
  : EmployeeRecord :=
  Employee (pers_nr emp) (name emp) (<[field := v]> (attrs emp))
           (sub_row_codes emp) (raw_lines emp).

Definition set_name (emp : EmployeeRecord) (n : string) : EmployeeRecord :=
  Employee (pers_nr emp) n (attrs emp) (sub_row_codes emp) (raw_lines emp).

Definition append_raw_line (emp : EmployeeRecord) (l : string)
  : EmployeeRecord :=
  Employee (pers_nr emp) (name emp) (attrs emp) (sub_row_codes emp)
           (raw_lines emp ++ [l]).

Definition append_sub_row_code (emp : EmployeeRecord) (c : string)
  : EmployeeRecord :=
  Employee (pers_nr emp) (name emp) (attrs emp) (sub_row_codes emp ++ [c])
           (raw_lines emp).

(** ** The column tables *)

(** The keys of [COLUMNS]. *)
Inductive row_type := main | tax | ag | minijob.

(** [COLUMNS[row_type]], in declaration order: field name, [(min_x, max_x)]. *)
Definition COLUMNS (rt : row_type) : list (string * (Z * Z)) :=
  match rt with
  | main =>
      [ ("steuerklasse", (60, 78));
        ("faktor", (80, 115));
        ("ki_freibetrag", (95, 135));
        ("name", (140, 350));
        ("kv_brutto", (455, 510));
        ("rv_brutto", (515, 570));
        ("av_brutto", (575, 630));
        ("pv_brutto", (635, 690));
        ("umlage_1", (700, 745));
        ("gesamtbrutto", (765, 820)) ]
  | tax =>
      [ ("st_tage", (130, 155));
        ("steuerbrutto", (170, 225));
        ("lohnsteuer", (245, 310));
        ("kirchensteuer", (310, 380));
        ("solidaritaetszuschlag", (380, 445));
        ("kv_beitrag_an", (465, 510));
        ("rv_beitrag_an", (525, 570));
        ("av_beitrag_an", (592, 625));
        ("pv_beitrag_an", (652, 690));
        ("umlage_2", (705, 745));
        ("netto_bezuege", (775, 825)) ]
  | ag =>
      [ ("sv_tage", (130, 155));
        ("pausch_verst_bezuege", (185, 225));
        ("pausch_lohnsteuer", (268, 305));
        ("pausch_kirchensteuer", (345, 375));
        ("pausch_solidaritaetszuschlag", (418, 450));
        ("kv_beitrag_ag", (465, 510));
        ("rv_beitrag_ag", (525, 570));
        ("av_beitrag_ag", (590, 630));
        ("pv_beitrag_ag", (650, 690));
        ("umlage_insolvenz", (710, 745));
        ("auszahlungsbetrag", (765, 825)) ]
  | minijob =>
      [ ("sv_tage", (130, 155));
        ("pausch_verst_bezuege", (180, 230));
        ("pausch_lohnsteuer", (265, 310));
        ("kv_beitrag_ag", (465, 510));
        ("rv_beitrag_ag", (525, 570));
        ("umlage_insolvenz", (705, 745));
        ("auszahlungsbetrag", (775, 825)) ]
  end.

Definition NUMERIC_FIELDS : list string :=
  [ "kv_brutto"; "rv_brutto"; "av_brutto"; "pv_brutto"; "gesamtbrutto";
    "steuerbrutto"; "lohnsteuer"; "kirchensteuer"; "solidaritaetszuschlag";
    "kv_beitrag_an"; "rv_beitrag_an"; "av_beitrag_an"; "pv_beitrag_an";
    "kv_beitrag_ag"; "rv_beitrag_ag"; "av_beitrag_ag"; "pv_beitrag_ag";
    "umlage_1"; "umlage_2"; "umlage_insolvenz"; "netto_bezuege";
    "auszahlungsbetrag";
    "pausch_verst_bezuege"; "pausch_lohnsteuer"; "pausch_kirchensteuer";
    "pausch_solidaritaetszuschlag" ].

Definition INT_FIELDS : list string := [ "st_tage"; "sv_tage" ].

Definition AG_ROW_CODES : list string := [ "01111"; "00110" ].
Definition MINIJOB_ROW_CODES : list string := [ "26500"; "26100" ].
Definition TAX_ROW_CODES : list string := [ "1"; "2"; "3"; "4"; "5"; "6" ].

(** ** Comparisons of a coordinate with the constants of the source *)

Definition Qltb (a b : Q) : bool := negb (Qle_bool b a).

(** [min_x <= x0 <= max_x] *)
Definition in_band (band : Z * Z) (x : Q) : bool :=
  Qle_bool (inject_Z (fst band)) x && Qle_bool x (inject_Z (snd band)).

(** ** [_set_field] *)

Definition _set_field (emp : EmployeeRecord) (field : string) (t : string)
  : EmployeeRecord :=
  if Py.str_in field NUMERIC_FIELDS then
    match parse_german_number t with
    | Some v => setattr emp field (VFloat v)
    | None => emp
    end
  else if Py.str_in field INT_FIELDS then
    if Py.isdigit (chars t) then setattr emp field (VInt (Py.int_of (chars t)))
    else emp
  else setattr emp field (VStr t).

(** ** [_parse_row] *)

(** The [for field_name, (min_x, max_x) in columns.items()] loop: the first
    band other than ['name'] that contains [x] receives the text. *)
Fixpoint match_column (columns : list (string * (Z * Z))) (emp : EmployeeRecord)
    (x : Q) (t : string) : EmployeeRecord :=
  match columns with
  | [] => emp
  | (field_name, band) :: rest =>
      if String.eqb field_name "name" then match_column rest emp x t
      else if in_band band x then _set_field emp field_name t
      else match_column rest emp x t
  end.

(** [columns['name']] when ['name' in columns] *)
Fixpoint name_range (columns : list (string * (Z * Z))) : option (Z * Z) :=
  match columns with
  | [] => None
  | (field_name, band) :: rest =>
      if String.eqb field_name "name" then Some band else name_range rest
  end.

(** [text.replace('.', '').replace(',', '').isdigit()] *)
Definition looks_numeric (t : string) : bool :=
  Py.isdigit (Py.remove_char ","%char (Py.remove_char "."%char (chars t))).

(** [f"{emp.name} {text}".strip() if emp.name else text] *)
Definition extend_name (n t : string) : string :=
  if String.eqb n "" then t
  else str (Py.strip (chars (n ++ " " ++ t)%string)).

Definition is_main (rt : row_type) : bool :=
  match rt with main => true | _ => false end.

(** The body of [for word in words]. *)
Definition word_step (rt : row_type) (skip_x : Q) (emp : EmployeeRecord)
    (w : word) : EmployeeRecord :=
  if Qltb (x0 w) skip_x || Py.str_in (text w) ["Z"; "E"] then emp
  else
    let columns := COLUMNS rt in
    match (if is_main rt then name_range columns else None) with
    | Some range =>
        if in_band range (x0 w) && negb (looks_numeric (text w))
        then set_name emp (extend_name (name emp) (text w))
        else match_column columns emp (x0 w) (text w)
    | None => match_column columns emp (x0 w) (text w)
    end.

(** The pattern [\s*NB\s*$] matched from the first character of [l]: white
    space, the two letters, white space up to the end.  Both stars are
    greedy and neither letter is white space, so no shorter repetition can
    succeed where the longest one fails. *)
Definition matches_NB (l : list ascii) : bool :=
  match Py.lstrip l with
  | "N"%char :: "B"%char :: rest => forallb Py.is_space rest
  | _ => false
  end.

(** [re.sub(r'\s*NB\s*$', '', s)]: the leftmost match runs to the end of the
    string and is replaced by the empty string. *)
Fixpoint sub_NB (l : list ascii) : list ascii :=
  if matches_NB l then []
  else match l with
       | [] => []
       | c :: l' => c :: sub_NB l'
       end.

(** [' '.join(w['text'] for w in words)] *)
Definition raw_line (words : list word) : string :=
  Py.join " " (map text words).

Definition _parse_row (emp : EmployeeRecord) (words : list word)
    (rt : row_type) (skip_x : Q) : EmployeeRecord :=
  let emp := if is_main rt then append_raw_line emp (raw_line words) else emp in
  let emp := fold_left (word_step rt skip_x) words emp in
  if is_main rt && negb (String.eqb (name emp) "")
  then set_name emp (str (Py.strip (sub_NB (chars (name emp)))))
  else emp.

(** ** [_parse_page] *)

(** [round(x)] on a float: to the nearest integer, ties to the even one. *)
Definition py_round (q : Q) : Z :=
  let f := Qfloor q in
  match Qcompare (q - inject_Z f) (1 # 2) with
  | Lt => f
  | Gt => f + 1
  | Eq => if Z.even f then f else f + 1
  end.

(** [round(word['top'] / 2) * 2] *)
Definition y_key (w : word) : Z := py_round (top w / 2) * 2.

(** [rows[y_key].append(word)], the dictionary kept as an association list
    in ascending key order, which is the order [sorted(rows.items())]
    visits. *)
Fixpoint rows_append (k : Z) (w : word) (rows : list (Z * list word))
  : list (Z * list word) :=
  match rows with
  | [] => [(k, [w])]
  | (k', ws) :: rest =>
      if k <? k' then (k, [w]) :: rows
      else if k =? k' then (k', ws ++ [w]) :: rest
      else (k', ws) :: rows_append k w rest
  end.

Definition group_rows (words : list word) : list (Z * list word) :=
  fold_left (fun rows w => rows_append (y_key w) w rows) words [].

(** [row_words.sort(key=lambda w: w['x0'])]: a stable sort. *)
Fixpoint insert_by_x0 (w : word) (l : list word) : list word :=
  match l with
  | [] => [w]
  | v :: l' =>
      if Qle_bool (x0 w) (x0 v) then w :: l else v :: insert_by_x0 w l'
  end.

Fixpoint sort_by_x0 (l : list word) : list word :=
  match l with
  | [] => []
  | w :: l' => insert_by_x0 w (sort_by_x0 l')
  end.

(** The test that opens a new employee: a 5-digit ID at the left edge. *)
Definition is_new_employee (first : string) (x : Q) : bool :=
  Py.isdigit (chars first) && (String.length first =? 5)%nat
  && negb (Py.str_in first AG_ROW_CODES)
  && negb (Py.str_in first MINIJOB_ROW_CODES)
  && Qltb x 35.

(** [self.employees] and the local [current_emp]. *)
Definition page_state : Type := list EmployeeRecord * option EmployeeRecord.

(** [if current_emp: self.employees.append(current_emp)] *)
Definition seal (employees : list EmployeeRecord)
    (current_emp : option EmployeeRecord) : list EmployeeRecord :=
  match current_emp with
  | Some emp => employees ++ [emp]
  | None => employees
  end.

(** The body of [for y_pos, row_words in sorted(rows.items())]. *)
Definition row_step (st : page_state) (row : Z * list word) : page_state :=
  let '(employees, current_emp) := st in
  let '(y_pos, row_words) := row in
  let row_words := sort_by_x0 row_words in
  match row_words with
  | [] => st
  | w0 :: _ =>
      if y_pos <? 95 then st
      else
        let first := text w0 in
        if is_new_employee first (x0 w0) then
          (seal employees current_emp,
           Some (_parse_row (new_record first) row_words main 60))
        else
          match current_emp with
          | Some emp =>
              let emp := append_raw_line emp (raw_line row_words) in
              if Py.str_in first TAX_ROW_CODES then
                (employees,
                 Some (_parse_row (append_sub_row_code emp first)
                                  row_words tax 130))
              else if Py.str_in first AG_ROW_CODES then
                (employees,
                 Some (_parse_row (append_sub_row_code emp first)
                                  row_words ag 65))
              else if Py.str_in first MINIJOB_ROW_CODES then
                (employees,
                 Some (_parse_row (append_sub_row_code emp first)
                                  row_words minijob 65))
              else (employees, Some emp)
          | None => st
          end
  end.

(** [_parse_page]: [employees] is [self.employees] on entry, the result is
    [self.employees] on return. *)
Definition _parse_page (employees : list EmployeeRecord) (words : list word)
  : list EmployeeRecord :=
  let '(employees, current_emp) :=
    fold_left row_step (group_rows words) (employees, None) in
  seal employees current_emp.

(** ** [parse] *)

(** What the parser asks of a [pdfplumber] page. *)
Record page := Page {
  extract_text : string;
  extract_words : list word;
}.

(** The filter of the list comprehension in [parse]. *)
Definition is_lohnjournal_page (p : page) : bool :=
  Py.contains "Lohnjournal" (extract_text p)
  && Py.contains "Form.-Nr.LOA313" (extract_text p).

(** [parse] on a freshly constructed parser ([self.employees = []]); the
    result is the returned [self.employees]. *)
Definition parse (pdf_pages : list page) : list EmployeeRecord :=
  fold_left (fun employees p => _parse_page employees (extract_words p))
            (List.filter is_lohnjournal_page pdf_pages) [].

(** ** [_extract_metadata] *)

(** The class [\w] on one character: the letters and digits of ASCII, the
    underscore, and beyond ASCII the code points below 256 that Python
    counts as alphanumeric. *)
Definition is_word (c : ascii) : bool :=
  let n := Z.of_N (N_of_ascii c) in
  Py.is_decimal c
  || ((65 <=? n) && (n <=? 90)) || (n =? 95) || ((97 <=? n) && (n <=? 122))
  || (n =? 170) || ((178 <=? n) && (n <=? 179)) || (n =? 181)
  || ((185 <=? n) && (n <=? 186)) || ((188 <=? n) && (n <=? 190))
  || ((192 <=? n) && (n <=? 214)) || ((216 <=? n) && (n <=? 246))
  || (248 <=? n).

(** The class [[\d.]] on one character. *)

Definition is_date_char (c : ascii) : bool :=
  Py.is_decimal c || Ascii.eqb c "."%char.

(** The longest prefix of characters of a class, and what follows it: a
    greedy [+] or [*] over one class. *)
Fixpoint span (cls : ascii → bool) (l : list ascii)
  : list ascii * list ascii :=
  match l with
  | c :: l' =>
      if cls c then let '(run, rest) := span cls l' in (c :: run, rest)
      else ([], l)
  | [] => ([], [])
  end.

(** [l] without the literal [lit] it starts with. *)
Fixpoint strip_literal (lit l : list ascii) : option (list ascii) :=
  match lit, l with
  | [], _ => Some l
  | a :: lit', b :: l' =>
      if Ascii.eqb a b then strip_literal lit' l' else None
  | _ :: _, [] => None
  end.

(** A pattern [LABEL\s*(C+)] matched at the first character of [l], the
    result being group 1.  The class [C] holds no white space, so the
    greedy [\s*] has no shorter repetition that could succeed. *)
Definition match_label (label : list ascii) (cls : ascii → bool)
    (l : list ascii) : option (list ascii) :=
  match strip_literal label l with
  | Some rest =>
      match fst (span cls (Py.lstrip rest)) with
      | [] => None
      | g => Some g
      end
  | None => None
  end.

(** The pattern [Lohnjournal\s+(\w+\s+\d{4})] matched at the first
    character of [l].  Neighbouring classes are disjoint, so every greedy
    repetition has to be the longest one. *)
Definition match_monat (l : list ascii) : option (list ascii) :=
  match strip_literal (chars "Lohnjournal") l with
  | Some rest =>
      match span Py.is_space rest with
      | ([], _) => None
      | (_, rest1) =>
          match span is_word rest1 with
          | ([], _) => None
          | (w, rest2) =>
              match span Py.is_space rest2 with
              | ([], _) => None
              | (ws, rest3) =>
                  let year := take 4 rest3 in
                  if (length year =? 4)%nat && forallb Py.is_decimal year
                  then Some (w ++ ws ++ year)
                  else None
              end
          end
      end
  | None => None
  end.

(** [re.search]: the match at the leftmost position where the pattern
    matches. *)
Fixpoint re_search (match_here : list ascii → option (list ascii))
    (l : list ascii) : option (list ascii) :=
  match match_here l with
  | Some g => Some g
  | None =>
      match l with
      | [] => None
      | _ :: l' => re_search match_here l'
      end
  end.

(** The dictionary [patterns], in its order. *)
Definition metadata_patterns
  : list (string * (list ascii → option (list ascii))) :=
  [ ("berater", match_label (chars "Berater:") Py.is_decimal);
    ("mandant", match_label (chars "Mandant:") Py.is_decimal);
    ("datum", match_label (chars "Datum:") is_date_char);
    ("monat", match_monat) ].

(** [_extract_metadata]: [metadata] is [self.metadata] on entry, the result
    is [self.metadata] on return. *)
Definition _extract_metadata (metadata : gmap string string) (p : page)
  : gmap string string :=
  fold_left
    (fun md kp =>
       match re_search (snd kp) (chars (extract_text p)) with
       | Some g => <[fst kp := str g]> md
       | None => md
       end)
    metadata_patterns metadata.

(** [self.metadata] after [parse] on a freshly constructed parser. *)
Definition parse_metadata (pdf_pages : list page) : gmap string string :=
  match List.filter is_lohnjournal_page pdf_pages with
  | [] => ∅
  | p :: _ => _extract_metadata ∅ p
  end.

(** ** [LohnjournalDatabase]: the name of a table *)

(** The class [[a-zA-Z0-9_]]. *)
Definition is_table_char (c : ascii) : bool :=
  let n := Z.of_N (N_of_ascii c) in
  ((97 <=? n) && (n <=? 122)) || ((65 <=? n) && (n <=? 90))
  || ((48 <=? n) && (n <=? 57)) || (n =? 95).

(** [re.sub(r'[^a-zA-Z0-9_]', '_', table_name)], the first statement of
    [create_table] and of [insert_employees]; [create_table] returns it. *)
Definition sanitize_table_name (table_name : string) : string :=
  str (map (fun c => if is_table_char c then c else "_"%char)
           (chars table_name)).

(** ** [import_all_lohnjournal.py]: the order of the files *)

(** [MONTH_ORDER].  The third key is spelled as the source file has it, the
    code points U+004D U+00C3 U+00A4 U+0072 U+007A. *)
Definition MONTH_ORDER : list (string * Z) :=
  [ ("Januar", 1); ("Februar", 2);
    (String "M" (String (ascii_of_nat 195) (String (ascii_of_nat 164) "rz")),
     3);
    ("April", 4); ("Mai", 5); ("Juni", 6); ("Juli", 7); ("August", 8);
    ("September", 9); ("Oktober", 10); ("November", 11); ("Dezember", 12) ].

(** [MONTH_ORDER.get(month_name, 0)] *)
Definition month_order (month_name : string) : Z :=
  match find (fun kv => String.eqb (fst kv) month_name) MONTH_ORDER with
  | Some kv => snd kv
  | None => 0
  end.

(** The pattern [(\w+)_(\d{4})] matched at the first character of [l] with
    [\w+] taking [n] characters or, when the rest of the pattern fails
    there, fewer: the greedy [\w+] gives characters back one at a time. *)
Fixpoint try_split (n : nat) (l : list ascii)
  : option (list ascii * list ascii) :=
  match n with
  | O => None
  | S n' =>
      match strip_literal ["_"%char] (drop n l) with
      | Some rest =>
          let year := take 4 rest in
          if (length year =? 4)%nat && forallb Py.is_decimal year
          then Some (take n l, year)
          else try_split n' l
      | None => try_split n' l
      end
  end.

(** The pattern matched at the first character of [l]: [\w+] starts with
    the whole run of word characters. *)
Definition match_month_year (l : list ascii)
  : option (list ascii * list ascii) :=
  try_split (length (fst (span is_word l))) l.

(** [re.search(r'(\w+)_(\d{4})', filename)]: groups 1 and 2 of the
    leftmost match. *)
Fixpoint search_month_year (l : list ascii)
  : option (list ascii * list ascii) :=
  match match_month_year l with
  | Some g => Some g
  | None =>
      match l with
      | [] => None
      | _ :: l' => search_month_year l'
      end
  end.

(** [extract_month_year]: month name, year and month number. *)
Definition extract_month_year (filename : string)
  : option string * option Z * Z :=
  match search_month_year (chars filename) with
  | Some (month_name, year) =>
      (Some (str month_name), Some (Py.int_of year),
       month_order (str month_name))
  | None => (None, None, 0)
  end.








(** ** Predicates and sample inputs of the statements *)

(** The token is one of the two placeholder markers. *)
Definition is_placeholder (w : word) : bool := Py.str_in (text w) ["Z"; "E"].

(** The left edge of the token is strictly left of the offset. *)
Definition left_of (skip_x : Q) (w : word) : bool := Qltb (x0 w) skip_x.

(** Two closed intervals with integer ends have no point in common. *)
Definition bands_disjoint (b1 b2 : Z * Z) : bool :=
  (snd b1 <? fst b2) || (snd b2 <? fst b1).

(** The pairs of bands of a table, in table order, that have a point in
    common. *)
Fixpoint overlapping_pairs (columns : list (string * (Z * Z)))
  : list ((string * (Z * Z)) * (string * (Z * Z))) :=
  match columns with
  | [] => []
  | c :: rest =>
      map (pair c)
          (List.filter (fun c' => negb (bands_disjoint (snd c) (snd c'))) rest)
      ++ overlapping_pairs rest
  end.

(** The band chosen for a left edge: the first one in table order, the name
    band left out, whose interval contains it. *)
Definition first_band (columns : list (string * (Z * Z))) (x : Q)
  : option (string * (Z * Z)) :=
  find (fun c => negb (String.eqb (fst c) "name") && in_band (snd c) x) columns.

(** Identity and audit trails of a record: the parts no column can name. *)
Definition audit (emp : EmployeeRecord) : string * list string * list string :=
  (pers_nr emp, sub_row_codes emp, raw_lines emp).

(** The row as the loop body sees it, after the sort. *)
Definition row_words_sorted (row : Z * list word) : list word :=
  sort_by_x0 (snd row).

(** The text of the first token, [row_words[0]['text']]. *)
Definition row_first (row : Z * list word) : string :=
  match row_words_sorted row with
  | w0 :: _ => text w0
  | [] => ""
  end.

(** The row is not passed over by [continue]. *)
Definition row_visible (row : Z * list word) : bool :=
  match row_words_sorted row with
  | [] => false
  | _ :: _ => negb (fst row <? 95)
  end.

(** The row takes the branch that opens a new employee. *)
Definition row_is_header (row : Z * list word) : bool :=
  match row_words_sorted row with
  | [] => false
  | w0 :: _ => negb (fst row <? 95) && is_new_employee (text w0) (x0 w0)
  end.

(** The first token is one of the codes of the three kinds of sub-row. *)
Definition row_is_coded (row : Z * list word) : bool :=
  Py.str_in (row_first row) TAX_ROW_CODES
  || Py.str_in (row_first row) AG_ROW_CODES
  || Py.str_in (row_first row) MINIJOB_ROW_CODES.



(** The rows that follow a header row up to the next one: they are not
    passed over and do not open a record. *)
Definition sub_row (row : Z * list word) : Prop :=
  row_visible row = true ∧ row_is_header row = false.

(** In every state the loop reaches, each record has more raw lines than
    sub-row codes. *)
Definition trails_ok (emp : EmployeeRecord) : Prop :=
  (length (sub_row_codes emp) < length (raw_lines emp))%nat.

Definition state_ok (st : page_state) : Prop :=
  Forall trails_ok (fst st) ∧ ∀ emp, snd st = Some emp → trails_ok emp.

(** The text found on every journal page. *)
Definition journal_text : string :=
  "Lohnjournal Januar 2024 Form.-Nr.LOA313".

(** A journal page with the header row of employee 12345 and nothing else. *)
Definition header_only_page : page :=
  Page journal_text
       [Word "12345" 20 100; Word "Jane" 150 100; Word "Doe" 200 100].

(** A header row, a tax row and a row that starts with no known code. *)
Definition header_row : Z * list word :=
  (100, [Word "12345" 20 100; Word "Jane" 150 100; Word "Doe" 200 100]).
Definition tax_row : Z * list word :=
  (110, [Word "1" 20 110; Word "12345" 250 110]).
Definition unknown_row : Z * list word :=
  (120, [Word "99999" 50 120]).


(** A second journal page that starts with a tax row. *)
Definition tax_row_page : page := Page journal_text (snd tax_row).

(** The tokens are in ascending order of their left edge. *)
Fixpoint ascending (l : list word) : Prop :=
  match l with
  | w :: (v :: _) as l' => (x0 w <= x0 v)%Q ∧ ascending l'
  | _ => True
  end.

(** The attributes that [_set_field] stores as text: the fields of the
    column tables that are in neither [NUMERIC_FIELDS] nor [INT_FIELDS]. *)
Definition TEXT_FIELDS : list string :=
  [ "steuerklasse"; "faktor"; "ki_freibetrag" ].

(** The value fits the attribute it is stored under. *)
Definition typed_attr (k : string) (v : value) : Prop :=
  match v with
  | VFloat _ => In k NUMERIC_FIELDS
  | VInt n => In k INT_FIELDS ∧ 0 <= n
  | VStr _ => In k TEXT_FIELDS
  end.

(** Every attribute that is set holds a value of its declared type. *)
Definition typed_record (emp : EmployeeRecord) : Prop :=
  ∀ k v, attrs emp !! k = Some v → typed_attr k v.

(** The leading codes of the three kinds of sub-row. *)
Definition SUB_ROW_CODES : list string :=
  TAX_ROW_CODES ++ AG_ROW_CODES ++ MINIJOB_ROW_CODES.

(** A journal page with a header row, a tax row and a row that starts with
    no known code. *)
Definition journal_page : page :=
  Page journal_text (snd header_row ++ snd tax_row ++ snd unknown_row).

(** The tokens of the row with key [k], none when there is no such row. *)
Definition row_of (k : Z) (rows : list (Z * list word)) : list word :=
  match find (fun r => fst r =? k) rows with
  | Some r => snd r
  | None => []
  end.

(** The rows are in strictly ascending order of their keys and none is
    empty. *)
Definition rows_wf (rows : list (Z * list word)) : Prop :=
  StronglySorted Z.lt (map fst rows) ∧ Forall (fun r => snd r ≠ []) rows.

(** The token lies at or below the line where the table starts. *)
Definition in_table (w : word) : bool := negb (Qltb (top w) 95).

(** The text [needle] stands somewhere in [hay]. *)
Definition occurs (needle hay : list ascii) : Prop :=
  ∃ a b, hay = a ++ needle ++ b.

(** The literal each metadata pattern starts with. *)
Definition metadata_label (key : string) : list ascii :=
  if String.eqb key "berater" then chars "Berater:"
  else if String.eqb key "mandant" then chars "Mandant:"
  else if String.eqb key "datum" then chars "Datum:"
  else chars "Lohnjournal".

(** A test for [occurs]. *)
Fixpoint occursb (needle hay : list ascii) : bool :=
  match strip_literal needle hay with
  | Some _ => true
  | None =>
      match hay with
      | [] => false
      | _ :: hay' => occursb needle hay'
      end
  end.



(** * Properties *)

(** ** Characters and strings *)

Lemma chars_str (l : list ascii) : chars (str l) = l.
Proof. apply list_ascii_of_string_of_list_ascii. Qed.

Lemma str_chars (s : string) : str (chars s) = s.
Proof. apply string_of_list_ascii_of_string. Qed.

Lemma decimal_not_space (c : ascii) :
  Py.is_decimal c = true → Py.is_space c = false.
Proof.
  unfold Py.is_decimal, Py.is_space. cbv zeta.
  generalize (Z.of_N (N_of_ascii c)). intros n H.
  apply andb_true_iff in H as [H1 H2].
  apply Z.leb_le in H1. apply Z.leb_le in H2.
  apply orb_false_iff. split; apply andb_false_iff.
  - right. apply Z.leb_gt. lia.
  - right. apply Z.leb_gt. lia.
Qed.

Lemma lstrip_all_space (l : list ascii) :
  forallb Py.is_space l = true → Py.lstrip l = [].
Proof.
  induction l as [|c l IH]; simpl; [reflexivity|].
  intros H. apply andb_true_iff in H as [Hc Hl]. rewrite Hc. auto.
Qed.



Lemma strip_all_space (l : list ascii) :
  forallb Py.is_space l = true → Py.strip l = [].
Proof. intros H. unfold Py.strip. now rewrite lstrip_all_space. Qed.



Lemma int_of_acc (l : list ascii) (acc : Z) :
  fold_left (fun a c => 10 * a + Py.digit_value c) l acc
  = acc * 10 ^ Z.of_nat (length l) + Py.int_of l.
Proof.
  unfold Py.int_of. revert acc.
  induction l as [|c l IH]; intros acc; simpl fold_left.
  - simpl. lia.
  - rewrite IH. rewrite (IH (10 * 0 + _)).
    replace (Z.of_nat (length (c :: l))) with (Z.succ (Z.of_nat (length l)))
      by (simpl length; lia).
    rewrite Z.pow_succ_r by lia. ring.
Qed.

(** The value of a digit run splits at any position. *)
Lemma int_of_app (a b : list ascii) :
  Py.int_of (a ++ b) = Py.int_of a * 10 ^ Z.of_nat (length b) + Py.int_of b.
Proof.
  unfold Py.int_of at 1. rewrite fold_left_app.
  fold (Py.int_of a). apply int_of_acc.
Qed.

(** ** The numeric normalizer *)






(** C8: the placeholder markers, the empty token and a token of white
    space only are normalized to absence, never to zero. *)
Theorem parse_german_number_absent (value : string) :
  value = "Z" ∨ value = "E" ∨ value = ""
  ∨ forallb Py.is_space (chars value) = true →
  parse_german_number value = None.
Proof.
  intros [-> | [-> | [-> | Hws]]]; try reflexivity.
  unfold parse_german_number.
  rewrite (strip_all_space _ Hws). simpl.
  now rewrite orb_true_r.
Qed.

Lemma parse_german_number_absent_witness :
  parse_german_number "Z" = None ∧ parse_german_number "E" = None
  ∧ parse_german_number "" = None ∧ parse_german_number "   " = None.
Proof.
  split; [|split; [|split]].
  - apply (parse_german_number_absent "Z"). left. reflexivity.
  - apply (parse_german_number_absent "E"). right. left. reflexivity.
  - apply (parse_german_number_absent ""). right. right. left. reflexivity.
  - apply (parse_german_number_absent "   "). right. right. right. reflexivity.
Defined.

(** ** The field mapper: tokens that are skipped *)

Lemma Qltb_lt (a b : Q) : Qltb a b = true ↔ (a < b)%Q.
Proof.
  unfold Qltb. rewrite negb_true_iff. split.
  - intros H. apply Qnot_le_lt. intros Hle.
    apply Qle_bool_iff in Hle. congruence.
  - intros H. destruct (Qle_bool b a) eqn:E; [|reflexivity].
    apply Qle_bool_iff in E. exfalso. eapply Qlt_not_le; eauto.
Qed.

(** Elements on which the loop body does nothing can be left out. *)
Lemma fold_left_skip {A B} (f : A → B → A) (keep : B → bool) (l : list B) :
  (∀ a b, keep b = false → f a b = a) →
  ∀ a, fold_left f l a = fold_left f (List.filter keep l) a.
Proof.
  intros Hskip. induction l as [|b l IH]; intros a; simpl; [reflexivity|].
  destruct (keep b) eqn:E; simpl.
  - apply IH.
  - rewrite Hskip by assumption. apply IH.
Qed.

Lemma word_step_skipped (rt : row_type) (skip_x : Q) (emp : EmployeeRecord)
    (w : word) :
  negb (left_of skip_x w) && negb (is_placeholder w) = false →
  word_step rt skip_x emp w = emp.
Proof.
  unfold word_step, left_of, is_placeholder. intros H.
  apply andb_false_iff in H as [H | H]; apply negb_false_iff in H;
    rewrite H; [reflexivity | now rewrite orb_true_r].
Qed.

(** C10: in a row of any kind a token whose text is exactly ["Z"] or ["E"]
    leaves the record as it is, whatever band its left edge falls in (the
    name band and the raw-text bands included): the mapping of a row is the
    mapping of the row without these tokens. *)
Theorem placeholder_tokens_never_mapped (rt : row_type) (skip_x : Q)
    (emp : EmployeeRecord) :
  (∀ x y, word_step rt skip_x emp (Word "Z" x y) = emp
          ∧ word_step rt skip_x emp (Word "E" x y) = emp)
  ∧ ∀ words,
      fold_left (word_step rt skip_x) words emp
      = fold_left (word_step rt skip_x)
                  (List.filter (fun w => negb (is_placeholder w)) words) emp.
Proof.
  split.
  - intros x y. split; apply word_step_skipped; unfold is_placeholder;
      simpl; apply andb_false_r.
  - intros words. apply fold_left_skip. intros a b Hb.
    apply word_step_skipped. rewrite Hb. apply andb_false_r.
Qed.




(** ** The band tables *)

Lemma bands_disjoint_sym (b1 b2 : Z * Z) :
  bands_disjoint b1 b2 = bands_disjoint b2 b1.
Proof. unfold bands_disjoint. apply orb_comm. Qed.

Lemma bands_disjoint_sound (b1 b2 : Z * Z) (x : Q) :
  bands_disjoint b1 b2 = true →
  in_band b1 x = true → in_band b2 x = true → False.
Proof.
  unfold bands_disjoint, in_band. intros Hd H1 H2.
  apply andb_true_iff in H1 as [L1 U1]. apply andb_true_iff in H2 as [L2 U2].
  apply Qle_bool_iff in L1, U1, L2, U2.
  apply orb_true_iff in Hd as [Hd | Hd]; apply Z.ltb_lt in Hd.
  - assert (H : (inject_Z (fst b2) <= inject_Z (snd b1))%Q)
      by (eapply Qle_trans; eauto).
    rewrite <- Zle_Qle in H. lia.
  - assert (H : (inject_Z (fst b1) <= inject_Z (snd b2))%Q)
      by (eapply Qle_trans; eauto).
    rewrite <- Zle_Qle in H. lia.
Qed.

(** Two bands of a table that contain the same left edge are one band or
    one of the overlapping pairs. *)
Lemma overlapping_pairs_complete (columns : list (string * (Z * Z)))
    (c1 c2 : string * (Z * Z)) (x : Q) :
  In c1 columns → In c2 columns →
  in_band (snd c1) x = true → in_band (snd c2) x = true →
  c1 = c2 ∨ In (c1, c2) (overlapping_pairs columns)
  ∨ In (c2, c1) (overlapping_pairs columns).
Proof.
  intros Hin1 Hin2 Hb1 Hb2.
  assert (Hpair : ∀ c c' rest,
             In c' rest → in_band (snd c) x = true →
             in_band (snd c') x = true →
             In (c, c') (overlapping_pairs (c :: rest))).
  { intros c c' rest Hin Hb Hb'. cbn [overlapping_pairs].
    apply in_or_app. left. apply in_map. apply filter_In.
    split; [assumption|].
    destruct (bands_disjoint (snd c) (snd c')) eqn:E; [|reflexivity].
    exfalso. eapply bands_disjoint_sound; eauto. }
  induction columns as [|c rest IH]; [destruct Hin1|].
  destruct Hin1 as [<- | Hin1], Hin2 as [<- | Hin2].
  - left. reflexivity.
  - right. left. now apply Hpair.
  - right. right. now apply Hpair.
  - destruct (IH Hin1 Hin2) as [E | [H | H]].
    + left. exact E.
    + right. left. cbn [overlapping_pairs]. apply in_or_app. now right.
    + right. right. cbn [overlapping_pairs]. apply in_or_app. now right.
Qed.

Lemma match_column_first_band (columns : list (string * (Z * Z)))
    (emp : EmployeeRecord) (x : Q) (t : string) :
  match_column columns emp x t
  = match first_band columns x with
    | Some (field_name, _) => _set_field emp field_name t
    | None => emp
    end.
Proof.
  unfold first_band.
  induction columns as [|[f b] rest IH]; simpl; [reflexivity|].
  destruct (String.eqb f "name"); simpl; [assumption|].
  destruct (in_band b x); [reflexivity | assumption].
Qed.

(** C5 as stated fails: the main table has two bands, [faktor] and
    [ki_freibetrag], that both contain the left edge 100, and the tax table
    has two, [lohnsteuer] and [kirchensteuer], that both contain 310. *)
Lemma bands_overlap :
  ¬ (∀ (rt : row_type) (c1 c2 : string * (Z * Z)) (x : Q),
       In c1 (COLUMNS rt) → In c2 (COLUMNS rt) →
       in_band (snd c1) x = true → in_band (snd c2) x = true → c1 = c2)
  ∧ In ("lohnsteuer", (245, 310)) (COLUMNS tax)
  ∧ In ("kirchensteuer", (310, 380)) (COLUMNS tax)
  ∧ in_band (245, 310) 310 = true ∧ in_band (310, 380) 310 = true.
Proof.
  split.
  - intros H.
    specialize (H main ("faktor", (80, 115)) ("ki_freibetrag", (95, 135)) 100%Q).
    assert (E : ("faktor", (80, 115)) = ("ki_freibetrag", (95, 135))).
    { apply H; simpl; auto. }
    discriminate E.
  - simpl. intuition.
Qed.

(** C5, amended: the bands are closed intervals.  In every table the token
    goes to the first band in declaration order that contains its left
    edge, the name band left out.  Two different bands of one table contain
    the same left edge only where they overlap: [faktor] and
    [ki_freibetrag] in the main table, and in the tax table [kirchensteuer]
    with each neighbour, at the end they share; the bands of the
    employer-row table and of the minijob-row table are pairwise
    disjoint. *)
Theorem band_tables_first_match (rt : row_type) (x : Q) :
  (∀ emp t,
     match_column (COLUMNS rt) emp x t
     = match first_band (COLUMNS rt) x with
       | Some (field_name, _) => _set_field emp field_name t
       | None => emp
       end)
  ∧ (∀ c1 c2, In c1 (COLUMNS rt) → In c2 (COLUMNS rt) →
              in_band (snd c1) x = true → in_band (snd c2) x = true →
              c1 = c2 ∨ In (c1, c2) (overlapping_pairs (COLUMNS rt))
              ∨ In (c2, c1) (overlapping_pairs (COLUMNS rt)))
  ∧ overlapping_pairs (COLUMNS main)
    = [(("faktor", (80, 115)), ("ki_freibetrag", (95, 135)))]
  ∧ overlapping_pairs (COLUMNS tax)
    = [(("lohnsteuer", (245, 310)), ("kirchensteuer", (310, 380)));
       (("kirchensteuer", (310, 380)), ("solidaritaetszuschlag", (380, 445)))]
  ∧ overlapping_pairs (COLUMNS ag) = []
  ∧ overlapping_pairs (COLUMNS minijob) = [].
Proof.
  split; [intros emp t; apply match_column_first_band|].
  split; [intros c1 c2; apply overlapping_pairs_complete|].
  repeat split; reflexivity.
Qed.

Lemma band_tables_first_match_witness :
  let c1 := ("faktor", (80, 115)) in
  let c2 := ("ki_freibetrag", (95, 135)) in
  (c1 = c2 ∨ In (c1, c2) (overlapping_pairs (COLUMNS main))
   ∨ In (c2, c1) (overlapping_pairs (COLUMNS main)))
  ∧ first_band (COLUMNS main) 100 = Some c1.
Proof.
  intros c1 c2. subst c1 c2. split.
  - apply (proj1 (proj2 (band_tables_first_match main 100%Q))).
    + right. left. reflexivity.
    + right. right. left. reflexivity.
    + reflexivity.
    + reflexivity.
  - reflexivity.
Defined.

(** ** What the field mapper leaves alone *)

Lemma _set_field_audit (emp : EmployeeRecord) (field t : string) :
  audit (_set_field emp field t) = audit emp.
Proof.
  unfold _set_field.
  destruct (Py.str_in field NUMERIC_FIELDS).
  - destruct (parse_german_number t); reflexivity.
  - destruct (Py.str_in field INT_FIELDS); [|reflexivity].
    destruct (Py.isdigit (chars t)); reflexivity.
Qed.

Lemma match_column_audit (columns : list (string * (Z * Z)))
    (emp : EmployeeRecord) (x : Q) (t : string) :
  audit (match_column columns emp x t) = audit emp.
Proof.
  rewrite match_column_first_band.
  destruct (first_band columns x) as [[f b]|]; [|reflexivity].
  apply _set_field_audit.
Qed.

Lemma word_step_audit (rt : row_type) (skip_x : Q) (emp : EmployeeRecord)
    (w : word) :
  audit (word_step rt skip_x emp w) = audit emp.
Proof.
  unfold word_step.
  destruct (Qltb (x0 w) skip_x || Py.str_in (text w) ["Z"; "E"]);
    [reflexivity|].
  destruct (if is_main rt then name_range (COLUMNS rt) else None) as [range|].
  - destruct (in_band range (x0 w) && negb (looks_numeric (text w)));
      [reflexivity | apply match_column_audit].
  - apply match_column_audit.
Qed.

Lemma fold_word_step_audit (rt : row_type) (skip_x : Q) (words : list word)
    (emp : EmployeeRecord) :
  audit (fold_left (word_step rt skip_x) words emp) = audit emp.
Proof.
  revert emp. induction words as [|w words IH]; intros emp; simpl;
    [reflexivity|].
  rewrite IH. apply word_step_audit.
Qed.

Lemma _parse_row_audit (emp : EmployeeRecord) (words : list word)
    (rt : row_type) (skip_x : Q) :
  audit (_parse_row emp words rt skip_x)
  = (pers_nr emp, sub_row_codes emp,
     if is_main rt then raw_lines emp ++ [raw_line words] else raw_lines emp).
Proof.
  unfold _parse_row.
  set (emp1 := if is_main rt then append_raw_line emp (raw_line words) else emp).
  set (emp2 := fold_left (word_step rt skip_x) words emp1).
  assert (H2 : audit emp2 = audit emp1) by apply fold_word_step_audit.
  assert (H1 : audit emp1
               = (pers_nr emp, sub_row_codes emp,
                  if is_main rt then raw_lines emp ++ [raw_line words]
                  else raw_lines emp))
    by (subst emp1; destruct (is_main rt); reflexivity).
  rewrite <- H1, <- H2.
  destruct (is_main rt && negb (String.eqb (name emp2) "")); reflexivity.
Qed.

(** ** The rows of a page *)

Lemma row_step_invisible (st : page_state) (row : Z * list word) :
  row_visible row = false → row_step st row = st.
Proof.
  destruct st as [es cur], row as [y ws].
  unfold row_visible, row_step, row_words_sorted. simpl.
  destruct (sort_by_x0 ws); [reflexivity|].
  intros H. apply negb_false_iff in H. now rewrite H.
Qed.

Lemma row_step_header (es : list EmployeeRecord) (cur : option EmployeeRecord)
    (row : Z * list word) :
  row_is_header row = true →
  row_step (es, cur) row
  = (seal es cur,
     Some (_parse_row (new_record (row_first row)) (row_words_sorted row)
                      main 60)).
Proof.
  destruct row as [y ws].
  unfold row_is_header, row_step, row_first, row_words_sorted. simpl.
  destruct (sort_by_x0 ws) as [|w0 rest]; [discriminate|].
  intros H. apply andb_true_iff in H as [Hy Hnew].
  apply negb_true_iff in Hy. now rewrite Hy, Hnew.
Qed.

Lemma row_step_closed (es : list EmployeeRecord) (row : Z * list word) :
  row_is_header row = false → row_step (es, None) row = (es, None).
Proof.
  destruct row as [y ws].
  unfold row_is_header, row_step, row_words_sorted. simpl.
  destruct (sort_by_x0 ws) as [|w0 rest]; [reflexivity|].
  destruct (y <? 95); [reflexivity|]. simpl. now intros ->.
Qed.

(** A row under an open record that does not open a new one. *)
Lemma row_step_sub_row (es : list EmployeeRecord) (emp : EmployeeRecord)
    (row : Z * list word) :
  row_visible row = true → row_is_header row = false →
  ∃ emp',
    row_step (es, Some emp) row = (es, Some emp')
    ∧ audit emp'
      = (pers_nr emp,
         sub_row_codes emp ++ (if row_is_coded row then [row_first row] else []),
         raw_lines emp ++ [raw_line (row_words_sorted row)])
    ∧ (row_is_coded row = false
       → emp' = append_raw_line emp (raw_line (row_words_sorted row))).
Proof.
  destruct row as [y ws].
  unfold row_visible, row_is_header, row_is_coded, row_step, row_first,
    row_words_sorted. cbn [fst snd].
  destruct (sort_by_x0 ws) as [|w0 rest]; [discriminate|].
  intros Hy. apply negb_true_iff in Hy. rewrite Hy. cbn [negb andb].
  intros ->.
  destruct (Py.str_in (text w0) TAX_ROW_CODES) eqn:Ht; cbn [orb].
  { eexists. split; [reflexivity|]. split; [|discriminate].
    now rewrite _parse_row_audit. }
  destruct (Py.str_in (text w0) AG_ROW_CODES) eqn:Ha; cbn [orb].
  { eexists. split; [reflexivity|]. split; [|discriminate].
    now rewrite _parse_row_audit. }
  destruct (Py.str_in (text w0) MINIJOB_ROW_CODES) eqn:Hm; cbn [orb].
  { eexists. split; [reflexivity|]. split; [|discriminate].
    now rewrite _parse_row_audit. }
  eexists. split; [reflexivity|]. split; [|reflexivity].
  unfold audit. cbn. now rewrite app_nil_r.
Qed.

(** ** The test for a header row *)

Lemma str_in_In (x : string) (xs : list string) :
  Py.str_in x xs = true ↔ In x xs.
Proof.
  unfold Py.str_in. rewrite existsb_exists. split.
  - intros (y & Hy & E). apply String.eqb_eq in E. now subst.
  - intros H. exists x. split; [assumption | apply String.eqb_refl].
Qed.


Lemma length_chars (s : string) : length (chars s) = String.length s.
Proof. induction s; simpl; congruence. Qed.





(** ** The record assembler *)

Lemma fold_sub_rows (es : list EmployeeRecord) (rs : list (Z * list word)) :
  Forall sub_row rs →
  ∀ emp, ∃ emp',
    fold_left row_step rs (es, Some emp) = (es, Some emp')
    ∧ audit emp'
      = (pers_nr emp,
         sub_row_codes emp ++ map row_first (List.filter row_is_coded rs),
         raw_lines emp ++ map (fun r => raw_line (row_words_sorted r)) rs).
Proof.
  induction 1 as [|row rs [Hvis Hnh] _ IH]; intros emp.
  - exists emp. split; [reflexivity|]. unfold audit. simpl.
    now rewrite !app_nil_r.
  - destruct (row_step_sub_row es emp row Hvis Hnh) as (emp1 & Hs & Ha & _).
    destruct (IH emp1) as (emp' & Hf & Ha').
    exists emp'. split; [cbn [fold_left]; now rewrite Hs|].
    rewrite Ha'. unfold audit in Ha. injection Ha as -> -> ->.
    simpl. destruct (row_is_coded row); simpl;
      now rewrite <- !app_assoc.
Qed.

Lemma seal_ok (st : page_state) :
  state_ok st → Forall trails_ok (seal (fst st) (snd st)).
Proof.
  destruct st as [es [emp|]]; intros [Hes Hcur]; simpl in *; [|assumption].
  apply Forall_app. split; [assumption|]. constructor; auto.
Qed.

Lemma row_step_ok (st : page_state) (row : Z * list word) :
  state_ok st → state_ok (row_step st row).
Proof.
  intros Hok.
  destruct (row_visible row) eqn:Hvis;
    [|now rewrite row_step_invisible].
  destruct st as [es cur].
  destruct (row_is_header row) eqn:Hh.
  - rewrite row_step_header by assumption. split.
    + apply (seal_ok (es, cur) Hok).
    + intros emp [= <-]. unfold trails_ok.
      pose proof (_parse_row_audit (new_record (row_first row))
                    (row_words_sorted row) main 60) as Ha.
      unfold audit in Ha. injection Ha as _ -> ->. simpl. lia.
  - destruct cur as [emp|]; [|now rewrite row_step_closed].
    destruct (row_step_sub_row es emp row Hvis Hh) as (emp' & -> & Ha & _).
    destruct Hok as [Hes Hcur]. split; [assumption|].
    intros ? [= <-]. specialize (Hcur emp eq_refl).
    unfold trails_ok in *. unfold audit in Ha. injection Ha as _ -> ->.
    rewrite !length_app. destruct (row_is_coded row); simpl; lia.
Qed.

Lemma fold_row_step_ok (rows : list (Z * list word)) (st : page_state) :
  state_ok st → state_ok (fold_left row_step rows st).
Proof.
  revert st. induction rows as [|row rows IH]; intros st Hok; simpl;
    [assumption|].
  apply IH, row_step_ok, Hok.
Qed.

Lemma _parse_page_ok (es : list EmployeeRecord) (words : list word) :
  Forall trails_ok es → Forall trails_ok (_parse_page es words).
Proof.
  intros Hes. unfold _parse_page.
  assert (Hok : state_ok (fold_left row_step (group_rows words) (es, None))).
  { apply fold_row_step_ok. split; [assumption | discriminate]. }
  destruct (fold_left row_step (group_rows words) (es, None)) as [es' cur'].
  apply (seal_ok (es', cur') Hok).
Qed.

Lemma parse_ok (pdf_pages : list page) : Forall trails_ok (parse pdf_pages).
Proof.
  unfold parse.
  generalize (List.filter is_lohnjournal_page pdf_pages). intros ps.
  assert (H : Forall trails_ok []) by constructor.
  revert H. generalize (@nil EmployeeRecord).
  induction ps as [|p ps IH]; intros es Hes; simpl; [assumption|].
  apply IH, _parse_page_ok, Hes.
Qed.

(** C2 as stated fails: a record made of a header row alone has one raw
    line and no sub-row code. *)
Lemma trails_of_unequal_length :
  ¬ (∀ (pdf_pages : list page) (emp : EmployeeRecord),
       In emp (parse pdf_pages) →
       length (sub_row_codes emp) = length (raw_lines emp)).
Proof.
  intros H.
  assert (Hp : ∃ emp, parse [header_only_page] = [emp]
                      ∧ sub_row_codes emp = []
                      ∧ raw_lines emp = ["12345 Jane Doe"]).
  { eexists. split; [vm_compute; reflexivity|]. split; reflexivity. }
  destruct Hp as (emp & Hp & Hs & Hr).
  specialize (H [header_only_page] emp).
  rewrite Hp, Hs, Hr in H. simpl in H.
  assert (E : 0%nat = 1%nat) by (apply H; left; reflexivity).
  discriminate E.
Qed.

(** C2, amended: both trails only grow.  After a header row and the rows
    that follow it up to the next header row, [raw_lines] holds the text of
    the header row and of every one of those rows, classified or not, and
    [sub_row_codes] holds the leading code of those among them that are
    tax, employer or minijob rows.  So in every record of the output
    [raw_lines] is longer than [sub_row_codes]. *)
Theorem audit_trails (es : list EmployeeRecord) (cur : option EmployeeRecord)
    (h : Z * list word) (rs : list (Z * list word)) :
  (row_is_header h = true → Forall sub_row rs →
   ∃ emp,
     fold_left row_step (h :: rs) (es, cur) = (seal es cur, Some emp)
     ∧ raw_lines emp
       = map (fun r => raw_line (row_words_sorted r)) (h :: rs)
     ∧ sub_row_codes emp = map row_first (List.filter row_is_coded rs)
     ∧ length (raw_lines emp) = S (length rs)
     ∧ length (sub_row_codes emp) = length (List.filter row_is_coded rs))
  ∧ (∀ emp, Forall sub_row rs →
       ∃ emp',
         fold_left row_step rs (es, Some emp) = (es, Some emp')
         ∧ raw_lines emp'
           = raw_lines emp ++ map (fun r => raw_line (row_words_sorted r)) rs
         ∧ sub_row_codes emp'
           = sub_row_codes emp ++ map row_first (List.filter row_is_coded rs))
  ∧ (∀ pdf_pages emp,
       In emp (parse pdf_pages) →
       (length (sub_row_codes emp) < length (raw_lines emp))%nat).
Proof.
  split; [|split].
  - intros Hh Hrs. cbn [fold_left]. rewrite row_step_header by assumption.
    set (emp0 := _parse_row (new_record (row_first h)) (row_words_sorted h)
                            main 60).
    destruct (fold_sub_rows (seal es cur) rs Hrs emp0) as (emp & Hf & Ha).
    pose proof (_parse_row_audit (new_record (row_first h))
                  (row_words_sorted h) main 60) as H0.
    fold emp0 in H0. unfold audit in H0, Ha.
    injection H0 as _ Hs0 Hr0. rewrite Hs0, Hr0 in Ha.
    injection Ha as _ Hs Hr. cbn in Hs, Hr.
    exists emp. split; [assumption|].
    split; [assumption|]. split; [assumption|]. split.
    + rewrite Hr. cbn [length]. now rewrite length_map.
    + rewrite Hs. now rewrite length_map.
  - intros emp Hrs.
    destruct (fold_sub_rows es rs Hrs emp) as (emp' & Hf & Ha).
    exists emp'. unfold audit in Ha. injection Ha as _ Hs Hr.
    repeat split; assumption.
  - intros pdf_pages emp Hin.
    pose proof (parse_ok pdf_pages) as Hok.
    rewrite List.Forall_forall in Hok. apply Hok, Hin.
Qed.

Lemma audit_trails_witness :
  ∃ emp,
    fold_left row_step [header_row; tax_row; unknown_row] ([], None)
    = ([], Some emp)
    ∧ length (raw_lines emp) = 3%nat
    ∧ length (sub_row_codes emp) = 1%nat
    ∧ (length (sub_row_codes emp) < length (raw_lines emp))%nat.
Proof.
  destruct (audit_trails [] None header_row [tax_row; unknown_row])
    as (Hblock & _ & Hout).
  destruct Hblock as (emp & Hf & _ & _ & Hr & Hs).
  - reflexivity.
  - repeat constructor.
  - exists emp. split; [exact Hf|]. split; [exact Hr|]. split; [exact Hs|].
    rewrite Hr, Hs. simpl. lia.
Defined.

(** C3 as stated fails: under an open record a row that starts with the
    unknown token 99999, right of the margin, changes the record: its text
    is appended to [raw_lines]. *)
Lemma unknown_row_leaves_a_trace :
  ¬ (∀ (st : page_state) (row : Z * list word),
       row_is_header row = false → row_is_coded row = false →
       row_step st row = st)
  ∧ _parse_page [] (snd header_row ++ snd unknown_row)
    ≠ _parse_page [] (snd header_row).
Proof.
  split.
  - intros H.
    specialize (H ([], Some (new_record "12345")) unknown_row
                  eq_refl eq_refl).
    vm_compute in H. discriminate H.
  - intros H.
    apply (f_equal (map (fun emp => length (raw_lines emp)))) in H.
    vm_compute in H. discriminate H.
Qed.

(** C3, amended: a row whose first token matches no rule is dropped when no
    record is open; under an open record its text is appended to
    [raw_lines] and nothing else changes: no field, no name, no sub-row
    code, and nothing is appended to the output. *)
Theorem unknown_row_effect (es : list EmployeeRecord) (row : Z * list word) :
  row_is_header row = false → row_is_coded row = false →
  row_step (es, None) row = (es, None)
  ∧ ∀ emp,
      row_step (es, Some emp) row
      = (es, Some (if row_visible row
                   then append_raw_line emp (raw_line (row_words_sorted row))
                   else emp)).
Proof.
  intros Hh Hc. split; [now apply row_step_closed|].
  intros emp. destruct (row_visible row) eqn:Hvis.
  - destruct (row_step_sub_row es emp row Hvis Hh) as (emp' & -> & _ & He).
    now rewrite (He Hc).
  - now apply row_step_invisible.
Qed.

Lemma unknown_row_effect_witness :
  row_step ([], None) unknown_row = ([], None)
  ∧ row_step ([], Some (new_record "12345")) unknown_row
    = ([], Some (append_raw_line (new_record "12345") "99999")).
Proof.
  destruct (unknown_row_effect [] unknown_row eq_refl eq_refl) as [Hn Hs].
  split; [exact Hn | exact (Hs (new_record "12345"))].
Defined.

(** ** Pages *)

Lemma seal_app (es : list EmployeeRecord) (cur : option EmployeeRecord) :
  seal es cur = es ++ seal [] cur.
Proof. destruct cur; simpl; [reflexivity | now rewrite app_nil_r]. Qed.

(** The loop body never reads [self.employees]; it only appends to it. *)
Lemma row_step_prefix (es : list EmployeeRecord) (cur : option EmployeeRecord)
    (row : Z * list word) :
  row_step (es, cur) row
  = (es ++ fst (row_step ([], cur) row), snd (row_step ([], cur) row)).
Proof.
  destruct row as [y ws]. unfold row_step.
  destruct (sort_by_x0 ws) as [|w0 rest];
    [cbn [fst snd]; now rewrite app_nil_r|].
  destruct (y <? 95); [cbn [fst snd]; now rewrite app_nil_r|].
  cbv zeta.
  destruct (is_new_employee (text w0) (x0 w0)).
  - cbn [fst snd]. now rewrite seal_app.
  - destruct cur as [emp|]; [|cbn [fst snd]; now rewrite app_nil_r].
    destruct (Py.str_in (text w0) TAX_ROW_CODES);
      [cbn [fst snd]; now rewrite app_nil_r|].
    destruct (Py.str_in (text w0) AG_ROW_CODES);
      [cbn [fst snd]; now rewrite app_nil_r|].
    destruct (Py.str_in (text w0) MINIJOB_ROW_CODES);
      cbn [fst snd]; now rewrite app_nil_r.
Qed.

Lemma fold_row_step_prefix (rows : list (Z * list word))
    (es : list EmployeeRecord) (cur : option EmployeeRecord) :
  fold_left row_step rows (es, cur)
  = (es ++ fst (fold_left row_step rows ([], cur)),
     snd (fold_left row_step rows ([], cur))).
Proof.
  revert es cur. induction rows as [|row rows IH]; intros es cur.
  - cbn [fold_left fst snd]. now rewrite app_nil_r.
  - cbn [fold_left]. rewrite (row_step_prefix es).
    destruct (row_step ([], cur) row) as [e1 c1]. cbn [fst snd].
    rewrite (IH (es ++ e1)), (IH e1). cbn [fst snd].
    now rewrite app_assoc.
Qed.


Lemma _parse_page_app (es : list EmployeeRecord) (words : list word) :
  _parse_page es words = es ++ _parse_page [] words.
Proof.
  unfold _parse_page. rewrite (fold_row_step_prefix _ es).
  destruct (fold_left row_step (group_rows words) ([], None)) as [es' cur'].
  cbn [fst snd]. rewrite (seal_app (es ++ es')), (seal_app es').
  now rewrite app_assoc.
Qed.

Lemma fold_parse_page_concat (ps : list page) (es : list EmployeeRecord) :
  fold_left (fun employees p => _parse_page employees (extract_words p)) ps es
  = es ++ concat (map (fun p => _parse_page [] (extract_words p)) ps).
Proof.
  revert es. induction ps as [|p ps IH]; intros es; cbn [fold_left map concat].
  - now rewrite app_nil_r.
  - rewrite IH, _parse_page_app. now rewrite app_assoc.
Qed.




(** ** A header row *)








(** * Further properties of the parser *)

(** ** The numeric normalizer on arbitrary text *)




Lemma str_inj (l1 l2 : list ascii) : str l1 = str l2 → l1 = l2.
Proof.
  intros H. apply (f_equal chars) in H. now rewrite !chars_str in H.
Qed.





(** ** [_set_field] and the frame of a row *)


Lemma _set_field_other (emp : EmployeeRecord) (field t g : string) :
  g ≠ field → attrs (_set_field emp field t) !! g = attrs emp !! g.
Proof.
  intros Hg. unfold _set_field.
  destruct (Py.str_in field NUMERIC_FIELDS).
  - destruct (parse_german_number t); [|reflexivity].
    cbn. now rewrite lookup_insert_ne.
  - destruct (Py.str_in field INT_FIELDS).
    + destruct (Py.isdigit (chars t)); [|reflexivity].
      cbn. now rewrite lookup_insert_ne.
    + cbn. now rewrite lookup_insert_ne.
Qed.

Lemma _set_field_name (emp : EmployeeRecord) (field t : string) :
  name (_set_field emp field t) = name emp.
Proof.
  unfold _set_field.
  destruct (Py.str_in field NUMERIC_FIELDS).
  - destruct (parse_german_number t); reflexivity.
  - destruct (Py.str_in field INT_FIELDS); [|reflexivity].
    destruct (Py.isdigit (chars t)); reflexivity.
Qed.



Lemma match_column_frame (columns : list (string * (Z * Z)))
    (emp : EmployeeRecord) (x : Q) (t g : string) :
  ¬ In g (map fst columns) →
  attrs (match_column columns emp x t) !! g = attrs emp !! g.
Proof.
  induction columns as [|[f b] rest IH]; [reflexivity|].
  cbn [map fst In match_column]. intros Hg.
  destruct (String.eqb f "name"); [apply IH; tauto|].
  destruct (in_band b x); [|apply IH; tauto].
  apply _set_field_other. intros ->. tauto.
Qed.

Lemma match_column_name (columns : list (string * (Z * Z)))
    (emp : EmployeeRecord) (x : Q) (t : string) :
  name (match_column columns emp x t) = name emp.
Proof.
  rewrite match_column_first_band.
  destruct (first_band columns x) as [[f b]|]; [|reflexivity].
  apply _set_field_name.
Qed.

Lemma word_step_frame (rt : row_type) (skip_x : Q) (emp : EmployeeRecord)
    (w : word) (g : string) :
  ¬ In g (map fst (COLUMNS rt)) →
  attrs (word_step rt skip_x emp w) !! g = attrs emp !! g.
Proof.
  intros Hg. unfold word_step.
  destruct (Qltb (x0 w) skip_x || Py.str_in (text w) ["Z"; "E"]);
    [reflexivity|].
  destruct (if is_main rt then name_range (COLUMNS rt) else None) as [range|].
  - destruct (in_band range (x0 w) && negb (looks_numeric (text w)));
      [reflexivity | now apply match_column_frame].
  - now apply match_column_frame.
Qed.

Lemma word_step_sub_row_name (rt : row_type) (skip_x : Q)
    (emp : EmployeeRecord) (w : word) :
  is_main rt = false → name (word_step rt skip_x emp w) = name emp.
Proof.
  intros Hm. unfold word_step. rewrite Hm.
  destruct (Qltb (x0 w) skip_x || Py.str_in (text w) ["Z"; "E"]);
    [reflexivity | apply match_column_name].
Qed.

Lemma _parse_row_sub_row_name (emp : EmployeeRecord) (words : list word)
    (rt : row_type) (skip_x : Q) :
  is_main rt = false → name (_parse_row emp words rt skip_x) = name emp.
Proof.
  intros Hm. unfold _parse_row. rewrite Hm. cbn [andb].
  revert emp. induction words as [|w ws IH]; intros emp; [reflexivity|].
  cbn [fold_left]. rewrite IH. now apply word_step_sub_row_name.
Qed.

(** X3: a row changes only the attributes that its own column table
    names; a tax, employer or minijob row also leaves the name alone.  So
    no row overwrites what a row of another kind stored under a field that
    is not in its table. *)
Theorem _parse_row_frame (emp : EmployeeRecord) (words : list word)
    (rt : row_type) (skip_x : Q) :
  (∀ g, ¬ In g (map fst (COLUMNS rt)) →
        attrs (_parse_row emp words rt skip_x) !! g = attrs emp !! g)
  ∧ (is_main rt = false → name (_parse_row emp words rt skip_x) = name emp).
Proof.
  assert (Hfold : ∀ g, ¬ In g (map fst (COLUMNS rt)) →
            ∀ e, attrs (fold_left (word_step rt skip_x) words e) !! g
                 = attrs e !! g).
  { intros g Hg. induction words as [|w ws IH]; intros e; [reflexivity|].
    cbn [fold_left]. rewrite IH. now apply word_step_frame. }
  split.
  - intros g Hg. unfold _parse_row.
    set (emp1 := if is_main rt then append_raw_line emp (raw_line words)
                 else emp).
    set (emp2 := fold_left (word_step rt skip_x) words emp1).
    assert (H2 : attrs emp2 !! g = attrs emp !! g).
    { subst emp2. rewrite (Hfold g Hg). subst emp1.
      destruct (is_main rt); reflexivity. }
    destruct (is_main rt && negb (String.eqb (name emp2) "")); exact H2.
  - apply _parse_row_sub_row_name.
Qed.

Lemma _parse_row_frame_witness :
  attrs (_parse_row (setattr (new_record "12345") "faktor" (VStr "0,9"))
                    (snd tax_row) tax 130) !! "faktor"
  = Some (VStr "0,9").
Proof.
  rewrite (proj1 (_parse_row_frame _ (snd tax_row) tax 130) "faktor").
  - reflexivity.
  - cbn. intros H. repeat (destruct H as [H | H]; [discriminate H|]).
    exact H.
Defined.

(** ** Invariants of the records in the output *)

Section OutputInvariant.

(** A property of records that holds when a header row opens a record and
    that every later step on the open record keeps. *)
Variable P : EmployeeRecord → Prop.

Hypothesis P_open : ∀ w0 rest,
  is_new_employee (text w0) (x0 w0) = true →
  P (_parse_row (new_record (text w0)) (w0 :: rest) main 60).

Hypothesis P_raw : ∀ emp l, P emp → P (append_raw_line emp l).

Hypothesis P_sub : ∀ emp code words rt skip_x,
  is_main rt = false → In code SUB_ROW_CODES → P emp →
  P (_parse_row (append_sub_row_code emp code) words rt skip_x).

Lemma seal_inv (es : list EmployeeRecord) (cur : option EmployeeRecord) :
  Forall P es → (∀ emp, cur = Some emp → P emp) → Forall P (seal es cur).
Proof.
  intros Hes Hcur. destruct cur as [emp|]; cbn [seal]; [|assumption].
  apply Forall_app. split; [assumption|]. constructor; auto.
Qed.

Lemma row_step_inv (st : page_state) (row : Z * list word) :
  Forall P (fst st) ∧ (∀ emp, snd st = Some emp → P emp) →
  Forall P (fst (row_step st row))
  ∧ (∀ emp, snd (row_step st row) = Some emp → P emp).
Proof.
  destruct st as [es cur], row as [y ws]. cbn [fst snd].
  intros [Hes Hcur]. unfold row_step.
  destruct (sort_by_x0 ws) as [|w0 rest]; [now split|].
  destruct (y <? 95); [now split|]. cbv zeta.
  destruct (is_new_employee (text w0) (x0 w0)) eqn:Hnew.
  { cbn [fst snd]. split; [now apply seal_inv|].
    intros emp [= <-]. now apply P_open. }
  destruct cur as [emp|]; [|now split].
  specialize (Hcur emp eq_refl).
  destruct (Py.str_in (text w0) TAX_ROW_CODES) eqn:Ht.
  { cbn [fst snd]. split; [assumption|]. intros ? [= <-].
    apply P_sub; [reflexivity| |now apply P_raw].
    apply str_in_In in Ht. unfold SUB_ROW_CODES. apply in_or_app. now left. }
  destruct (Py.str_in (text w0) AG_ROW_CODES) eqn:Ha.
  { cbn [fst snd]. split; [assumption|]. intros ? [= <-].
    apply P_sub; [reflexivity| |now apply P_raw].
    apply str_in_In in Ha. unfold SUB_ROW_CODES.
    apply in_or_app. right. apply in_or_app. now left. }
  destruct (Py.str_in (text w0) MINIJOB_ROW_CODES) eqn:Hm.
  { cbn [fst snd]. split; [assumption|]. intros ? [= <-].
    apply P_sub; [reflexivity| |now apply P_raw].
    apply str_in_In in Hm. unfold SUB_ROW_CODES.
    apply in_or_app. right. apply in_or_app. now right. }
  cbn [fst snd]. split; [assumption|]. intros ? [= <-]. now apply P_raw.
Qed.

Lemma _parse_page_inv (es : list EmployeeRecord) (words : list word) :
  Forall P es → Forall P (_parse_page es words).
Proof.
  intros Hes. unfold _parse_page.
  assert (H : ∀ rows st,
            Forall P (fst st) ∧ (∀ emp, snd st = Some emp → P emp) →
            Forall P (fst (fold_left row_step rows st))
            ∧ (∀ emp, snd (fold_left row_step rows st) = Some emp → P emp)).
  { induction rows as [|row rows IH]; intros st Hst; [exact Hst|].
    cbn [fold_left]. apply IH, row_step_inv, Hst. }
  specialize (H (group_rows words) (es, None)).
  destruct (fold_left row_step (group_rows words) (es, None)) as [es' cur'].
  cbn [fst snd] in H. apply seal_inv; apply H; (split; [assumption|]);
    discriminate.
Qed.

Lemma parse_inv (pdf_pages : list page) : Forall P (parse pdf_pages).
Proof.
  unfold parse.
  generalize (List.filter is_lohnjournal_page pdf_pages). intros ps.
  assert (H : Forall P []) by constructor.
  revert H. generalize (@nil EmployeeRecord).
  induction ps as [|p ps IH]; intros es Hes; cbn [fold_left]; [assumption|].
  apply IH, _parse_page_inv, Hes.
Qed.

End OutputInvariant.

Lemma int_of_nonneg (l : list ascii) :
  forallb Py.is_decimal l = true → 0 <= Py.int_of l.
Proof.
  unfold Py.int_of.
  assert (H : ∀ acc, 0 <= acc → forallb Py.is_decimal l = true →
                     0 <= fold_left (fun a c => 10 * a + Py.digit_value c)
                                    l acc).
  { induction l as [|c l IH]; intros acc Hacc Hall; [assumption|].
    cbn [fold_left]. cbn [forallb] in Hall.
    apply andb_true_iff in Hall as [Hc Hl]. apply IH; [|assumption].
    unfold Py.is_decimal in Hc. cbv zeta in Hc. unfold Py.digit_value.
    apply andb_true_iff in Hc as [Hc _]. apply Z.leb_le in Hc. lia. }
  apply H. lia.
Qed.

Lemma isdigit_all_decimal (l : list ascii) :
  Py.isdigit l = true → forallb Py.is_decimal l = true.
Proof. destruct l; [discriminate | trivial]. Qed.

(** Every field of a column table but the name is declared numeric, integer
    or text. *)
Lemma columns_declared (rt : row_type) (c : string * (Z * Z)) :
  In c (COLUMNS rt) →
  fst c = "name" ∨ In (fst c) NUMERIC_FIELDS ∨ In (fst c) INT_FIELDS
  ∨ In (fst c) TEXT_FIELDS.
Proof.
  intros Hin.
  assert (H : Py.str_in (fst c)
                ("name" :: NUMERIC_FIELDS ++ INT_FIELDS ++ TEXT_FIELDS) = true).
  { destruct rt; cbn [COLUMNS In] in Hin;
      repeat (destruct Hin as [<- | Hin]; [reflexivity|]); destruct Hin. }
  apply str_in_In in H. destruct H as [H | H]; [left; now symmetry|].
  right. apply in_app_or in H as [H | H]; [now left|]. right.
  apply in_app_or in H. exact H.
Qed.

Lemma setattr_typed (emp : EmployeeRecord) (field : string) (v : value) :
  typed_attr field v → typed_record emp → typed_record (setattr emp field v).
Proof.
  intros Hv Hemp k u. cbn [setattr attrs].
  destruct (decide (field = k)) as [<- | Hne].
  - rewrite lookup_insert_eq. now intros [= <-].
  - rewrite lookup_insert_ne by assumption. apply Hemp.
Qed.

Lemma _set_field_typed (emp : EmployeeRecord) (field t : string) :
  In field NUMERIC_FIELDS ∨ In field INT_FIELDS ∨ In field TEXT_FIELDS →
  typed_record emp → typed_record (_set_field emp field t).
Proof.
  intros Hdecl Hemp. unfold _set_field.
  destruct (Py.str_in field NUMERIC_FIELDS) eqn:Hn.
  { destruct (parse_german_number t); [|assumption].
    apply setattr_typed; [|assumption]. now apply str_in_In. }
  destruct (Py.str_in field INT_FIELDS) eqn:Hi.
  { destruct (Py.isdigit (chars t)) eqn:Hd; [|assumption].
    apply setattr_typed; [|assumption]. split; [now apply str_in_In|].
    now apply int_of_nonneg, isdigit_all_decimal. }
  apply setattr_typed; [|assumption]. cbn [typed_attr].
  destruct Hdecl as [H | [H | H]]; [| |assumption];
    apply str_in_In in H; congruence.
Qed.

Lemma word_step_typed (rt : row_type) (skip_x : Q) (emp : EmployeeRecord)
    (w : word) :
  typed_record emp → typed_record (word_step rt skip_x emp w).
Proof.
  intros Hemp.
  assert (Hmatch : typed_record
                     (match_column (COLUMNS rt) emp (x0 w) (text w))).
  { rewrite match_column_first_band. unfold first_band.
    destruct (find _ (COLUMNS rt)) as [[f b]|] eqn:E; [|assumption].
    apply find_some in E as [Hin Hc]. cbn [fst snd] in Hc.
    apply andb_true_iff in Hc as [Hname _].
    apply _set_field_typed; [|assumption].
    destruct (columns_declared rt (f, b) Hin) as [H | H]; [|exact H].
    cbn [fst] in H. subst f. discriminate Hname. }
  unfold word_step.
  destruct (Qltb (x0 w) skip_x || Py.str_in (text w) ["Z"; "E"]);
    [assumption|].
  destruct (if is_main rt then name_range (COLUMNS rt) else None) as [range|];
    [|assumption].
  destruct (in_band range (x0 w) && negb (looks_numeric (text w)));
    assumption.
Qed.

Lemma _parse_row_typed (emp : EmployeeRecord) (words : list word)
    (rt : row_type) (skip_x : Q) :
  typed_record emp → typed_record (_parse_row emp words rt skip_x).
Proof.
  intros Hemp. unfold _parse_row.
  set (emp1 := if is_main rt then append_raw_line emp (raw_line words)
               else emp).
  assert (H1 : typed_record emp1) by (subst emp1; now destruct (is_main rt)).
  clearbody emp1.
  assert (H2 : typed_record (fold_left (word_step rt skip_x) words emp1)).
  { revert emp1 H1. induction words as [|w ws IH]; intros e He; [assumption|].
    cbn [fold_left]. apply IH, word_step_typed, He. }
  destruct (is_main rt && negb _); assumption.
Qed.

(** X4: in every record of the output an attribute that is set holds a
    value of its declared type: a number under a numeric field, a
    non-negative integer under [st_tage] or [sv_tage], text under
    [steuerklasse], [faktor] or [ki_freibetrag].  No other attribute is
    ever set; [foerderbetrag], which no column table names, stays absent. *)
Theorem output_attributes_typed (pdf_pages : list page)
    (emp : EmployeeRecord) :
  In emp (parse pdf_pages) →
  typed_record emp ∧ attrs emp !! "foerderbetrag" = None.
Proof.
  intros Hin.
  assert (Htyped : typed_record emp).
  { assert (Hall : Forall typed_record (parse pdf_pages)).
    { apply parse_inv.
      - intros w0 rest _. apply _parse_row_typed. intros k v.
        cbn. now rewrite lookup_empty.
      - intros e l He. exact He.
      - intros e code words rt skip_x _ _ He. apply _parse_row_typed.
        exact He. }
    rewrite List.Forall_forall in Hall. now apply Hall. }
  split; [exact Htyped|].
  destruct (attrs emp !! "foerderbetrag") as [v|] eqn:E; [|reflexivity].
  apply Htyped in E. exfalso.
  destruct v; cbn [typed_attr] in E; [| |destruct E as [E _]];
    apply str_in_In in E; discriminate E.
Qed.

Lemma output_attributes_typed_witness :
  ∃ emp, parse [journal_page] = [emp]
         ∧ attrs emp !! "lohnsteuer" = Some (VFloat (12345 # 100))
         ∧ typed_record emp ∧ attrs emp !! "foerderbetrag" = None.
Proof.
  eexists. split; [vm_compute; reflexivity|].
  split; [vm_compute; reflexivity|].
  apply (output_attributes_typed [journal_page]).
  left. vm_compute. reflexivity.
Defined.



(** X6: every entry of [sub_row_codes], in every record of the output, is
    one of the ten leading codes of tax, employer and minijob rows. *)
Theorem output_sub_row_codes (pdf_pages : list page) (emp : EmployeeRecord) :
  In emp (parse pdf_pages) →
  ∀ code, In code (sub_row_codes emp) → In code SUB_ROW_CODES.
Proof.
  intros Hin.
  set (P := fun e => ∀ code, In code (sub_row_codes e) → In code SUB_ROW_CODES).
  assert (Hall : Forall P (parse pdf_pages)).
  { apply parse_inv; subst P; cbv beta.
    - intros w0 rest _ code.
      pose proof (_parse_row_audit (new_record (text w0)) (w0 :: rest)
                    main 60) as Ha.
      apply (f_equal (fun a => snd (fst a))) in Ha. cbn in Ha. rewrite Ha.
      intros [].
    - intros e l He. exact He.
    - intros e code words rt skip_x _ Hcode He c.
      pose proof (_parse_row_audit (append_sub_row_code e code) words rt
                    skip_x) as Ha.
      apply (f_equal (fun a => snd (fst a))) in Ha. cbn in Ha. rewrite Ha.
      intros Hc. apply in_app_or in Hc as [Hc | [<- | []]]; auto. }
  rewrite List.Forall_forall in Hall. now apply (Hall emp).
Qed.

Lemma output_sub_row_codes_witness :
  ∃ emp, parse [journal_page] = [emp] ∧ sub_row_codes emp = ["1"]
         ∧ ∀ code, In code (sub_row_codes emp) → In code SUB_ROW_CODES.
Proof.
  eexists. split; [vm_compute; reflexivity|].
  split; [vm_compute; reflexivity|].
  apply (output_sub_row_codes [journal_page]). left. vm_compute. reflexivity.
Defined.

(** ** Records and header rows *)

Lemma row_is_header_visible (row : Z * list word) :
  row_is_header row = true → row_visible row = true.
Proof.
  unfold row_is_header, row_visible.
  destruct (row_words_sorted row); [discriminate|].
  intros H. now apply andb_true_iff in H as [H _].
Qed.

Lemma row_step_pers_nr (es : list EmployeeRecord)
    (cur : option EmployeeRecord) (row : Z * list word) :
  map pers_nr (seal (fst (row_step (es, cur) row))
                    (snd (row_step (es, cur) row)))
  = map pers_nr (seal es cur)
    ++ (if row_is_header row then [row_first row] else []).
Proof.
  destruct (row_is_header row) eqn:Hh.
  - rewrite row_step_header by assumption. cbn [fst snd seal].
    rewrite map_app. cbn [map]. do 2 f_equal.
    apply (f_equal (fun a => fst (fst a))
             (_parse_row_audit (new_record (row_first row))
                               (row_words_sorted row) main 60)).
  - rewrite app_nil_r. destruct (row_visible row) eqn:Hvis;
      [|now rewrite row_step_invisible].
    destruct cur as [emp|]; [|now rewrite row_step_closed].
    destruct (row_step_sub_row es emp row Hvis Hh) as (emp' & -> & Ha & _).
    cbn [fst snd seal]. rewrite !map_app. cbn [map]. do 2 f_equal.
    apply (f_equal (fun a => fst (fst a)) Ha).
Qed.

Lemma fold_row_step_pers_nr (rows : list (Z * list word))
    (es : list EmployeeRecord) (cur : option EmployeeRecord) :
  map pers_nr (seal (fst (fold_left row_step rows (es, cur)))
                    (snd (fold_left row_step rows (es, cur))))
  = map pers_nr (seal es cur)
    ++ map row_first (List.filter row_is_header rows).
Proof.
  revert es cur. induction rows as [|row rows IH]; intros es cur.
  - cbn. now rewrite app_nil_r.
  - cbn [fold_left List.filter].
    destruct (row_step (es, cur) row) as [es1 cur1] eqn:E.
    rewrite IH.
    pose proof (row_step_pers_nr es cur row) as Hrow.
    rewrite E in Hrow. cbn [fst snd] in Hrow. rewrite Hrow.
    destruct (row_is_header row); cbn [map]; rewrite <- app_assoc;
      reflexivity.
Qed.

(** X7: the output has one record for each header row of the qualifying
    pages, in page order and, within a page, from top to bottom, and the
    [pers_nr] of a record is the first token of its header row: no header
    row is lost and no record is made up. *)
Theorem one_record_per_header_row (pdf_pages : list page) :
  map pers_nr (parse pdf_pages)
  = concat (map (fun p => map row_first
                            (List.filter row_is_header
                                         (group_rows (extract_words p))))
                (List.filter is_lohnjournal_page pdf_pages))
  ∧ length (parse pdf_pages)
    = length (concat (map (fun p => List.filter row_is_header
                                      (group_rows (extract_words p)))
                          (List.filter is_lohnjournal_page pdf_pages))).
Proof.
  assert (Hpage : ∀ words,
            map pers_nr (_parse_page [] words)
            = map row_first (List.filter row_is_header (group_rows words))).
  { intros words. unfold _parse_page.
    pose proof (fold_row_step_pers_nr (group_rows words) [] None) as H.
    destruct (fold_left row_step (group_rows words) ([], None)) as [es cur].
    exact H. }
  assert (Hmap : map pers_nr (parse pdf_pages)
                 = concat (map (fun p => map row_first
                                  (List.filter row_is_header
                                     (group_rows (extract_words p))))
                               (List.filter is_lohnjournal_page pdf_pages))).
  { unfold parse. rewrite fold_parse_page_concat. cbn [app].
    generalize (List.filter is_lohnjournal_page pdf_pages). intros ps.
    induction ps as [|p ps IH]; [reflexivity|].
    cbn [map concat]. now rewrite map_app, Hpage, IH. }
  split; [exact Hmap|].
  apply (f_equal (@length string)) in Hmap. rewrite length_map in Hmap.
  rewrite Hmap.
  generalize (List.filter is_lohnjournal_page pdf_pages). intros ps.
  induction ps as [|p ps IH]; [reflexivity|].
  cbn [map concat]. now rewrite !length_app, length_map, IH.
Qed.

(** X8: parsing is page by page.  The records of two page sequences put
    one after the other are the records of the first followed by those of
    the second, and a page that lacks one of the two marker texts
    contributes nothing, wherever it stands. *)
Theorem parse_page_sequences (ps1 ps2 : list page) :
  parse (ps1 ++ ps2) = parse ps1 ++ parse ps2
  ∧ ∀ p, is_lohnjournal_page p = false →
         parse (ps1 ++ p :: ps2) = parse (ps1 ++ ps2).
Proof.
  assert (Happ : ∀ a b, parse (a ++ b) = parse a ++ parse b).
  { intros a b. unfold parse.
    rewrite !fold_parse_page_concat, List.filter_app, map_app, concat_app.
    reflexivity. }
  split; [apply Happ|].
  intros p Hp. rewrite !Happ. f_equal.
  change (p :: ps2) with ([p] ++ ps2). rewrite Happ.
  unfold parse at 1. cbn [List.filter]. now rewrite Hp.
Qed.

Lemma parse_page_sequences_witness :
  parse ([journal_page] ++ Page "Deckblatt" (snd header_row) :: [tax_row_page])
  = parse ([journal_page] ++ [tax_row_page]).
Proof.
  apply (proj2 (parse_page_sequences [journal_page] [tax_row_page])).
  reflexivity.
Defined.

(** ** The row clusterer *)

Lemma py_round_near (q : Q) :
  (inject_Z (py_round q) - (1 # 2) <= q)%Q
  ∧ (q <= inject_Z (py_round q) + (1 # 2))%Q
  ∧ ((q == inject_Z (py_round q) + (1 # 2))%Q → Z.even (py_round q) = true).
Proof.
  unfold py_round.
  pose proof (Qfloor_le q) as Hlo. pose proof (Qlt_floor q) as Hhi.
  rewrite inject_Z_plus in Hhi.
  change (inject_Z 1) with 1%Q in Hhi.
  set (f := Qfloor q) in *. set (F := inject_Z f) in *.
  destruct (Qcompare (q - F) (1 # 2)) eqn:E.
  - apply Qeq_alt in E. destruct (Z.even f) eqn:Ev.
    + fold F. split; [lra|]. split; [lra|]. intros _. exact Ev.
    + rewrite inject_Z_plus. fold F. change (inject_Z 1) with 1%Q.
      split; [lra|]. split; [lra|]. intros H. lra.
  - apply Qlt_alt in E. fold F.
    split; [lra|]. split; [lra|]. intros H. lra.
  - apply Qgt_alt in E. rewrite inject_Z_plus. fold F.
    change (inject_Z 1) with 1%Q.
    split; [lra|]. split; [lra|]. intros H. lra.
Qed.

Lemma y_key_near (u : word) :
  (inject_Z (y_key u) - 1 <= top u)%Q ∧ (top u <= inject_Z (y_key u) + 1)%Q.
Proof.
  unfold y_key.
  destruct (py_round_near (top u / 2)) as (Hlo & Hhi & _).
  rewrite inject_Z_mult. change (inject_Z 2) with 2%Q.
  set (R := inject_Z (py_round (top u / 2))) in *.
  assert (Hhalf : (top u / 2 == top u * (1 # 2))%Q)
    by (unfold Qdiv; reflexivity).
  rewrite Hhalf in Hlo, Hhi. split; lra.
Qed.

(** A token is above the table exactly when its key is: a [top] of 95
    itself, halfway between the keys 94 and 96, goes to 96. *)
Lemma y_key_lt_95 (w : word) : y_key w < 95 ↔ (top w < 95)%Q.
Proof.
  unfold y_key.
  destruct (py_round_near (top w / 2)) as (Hlo & Hhi & Htie).
  assert (Hhalf : (top w / 2 == top w * (1 # 2))%Q)
    by (unfold Qdiv; reflexivity).
  set (r := py_round (top w / 2)) in *.
  split.
  - intros Hr. assert (Hr' : r <= 47) by lia.
    assert (HR : (inject_Z r <= 47)%Q)
      by (change 47%Q with (inject_Z 47); now rewrite <- Zle_Qle).
    destruct (Qlt_le_dec (top w) 95) as [Hlt | Hge]; [assumption|].
    exfalso.
    rewrite Hhalf in Hhi.
    assert (Hr47 : (inject_Z r == 47)%Q).
    { clearbody r. set (R := inject_Z r) in *. apply Qle_antisym; lra. }
    assert (E : r = 47).
    { apply inject_Z_injective. exact Hr47. }
    assert (Hev : Z.even r = true).
    { apply Htie. rewrite Hhalf. clearbody r.
      set (R := inject_Z r) in *. apply Qle_antisym; lra. }
    rewrite E in Hev. discriminate Hev.
  - intros Hlt.
    assert (HR : (inject_Z r < 48)%Q).
    { rewrite Hhalf in Hlo. clearbody r. set (R := inject_Z r) in *. lra. }
    change 48%Q with (inject_Z 48) in HR. rewrite <- Zlt_Qlt in HR. lia.
Qed.

(** X9: the vertical key of a token is an even integer within one unit of
    its [top], so two tokens that share a row are at most two units apart;
    and the key is below the threshold 95 exactly when [top] is. *)
Theorem y_key_tolerance (w : word) :
  Z.even (y_key w) = true
  ∧ (inject_Z (y_key w) - 1 <= top w)%Q
  ∧ (top w <= inject_Z (y_key w) + 1)%Q
  ∧ (y_key w < 95 ↔ (top w < 95)%Q)
  ∧ ∀ v, y_key v = y_key w →
         (top v - top w <= 2)%Q ∧ (top w - top v <= 2)%Q.
Proof.
  split; [|split; [apply y_key_near|split; [apply y_key_near|split]]].
  - unfold y_key. rewrite Z.even_mul. apply orb_true_r.
  - apply y_key_lt_95.
  - intros v Hv.
    destruct (y_key_near v) as [Hv1 Hv2], (y_key_near w) as [Hw1 Hw2].
    rewrite Hv in Hv1, Hv2. split; lra.
Qed.

Lemma y_key_tolerance_witness :
  y_key (Word "Doe" 200 (1001 # 10)) = 100
  ∧ ((1001 # 10) - 100 <= 2)%Q ∧ (100 - (1001 # 10) <= 2)%Q.
Proof.
  split; [reflexivity|].
  pose proof (proj2 (proj2 (proj2 (proj2
                (y_key_tolerance (Word "12345" 20 100)))))
                (Word "Doe" 200 (1001 # 10))) as H.
  cbn [top] in H. apply H. reflexivity.
Defined.

Lemma group_rows_snoc (ws : list word) (w : word) :
  group_rows (ws ++ [w]) = rows_append (y_key w) w (group_rows ws).
Proof. unfold group_rows. now rewrite fold_left_app. Qed.

Lemma rows_append_keys (k : Z) (w : word) (rows : list (Z * list word))
    (k' : Z) :
  In k' (map fst (rows_append k w rows)) → k' = k ∨ In k' (map fst rows).
Proof.
  induction rows as [|[k0 ws0] rest IH]; cbn [rows_append].
  - cbn. intuition congruence.
  - destruct (k <? k0); [cbn; intuition congruence|].
    destruct (k =? k0) eqn:E; [cbn; intuition congruence|].
    cbn [map fst In]. intros [H | H]; [tauto|]. apply IH in H. tauto.
Qed.

Lemma row_of_fresh (k : Z) (rows : list (Z * list word)) :
  Forall (Z.lt k) (map fst rows) → row_of k rows = [].
Proof.
  unfold row_of. induction rows as [|[k0 ws0] rest IH]; [reflexivity|].
  cbn [map fst find]. intros H. apply List.Forall_cons_iff in H as [H0 H].
  replace (k0 =? k) with false by (symmetry; apply Z.eqb_neq; lia).
  now apply IH.
Qed.

Lemma rows_append_wf (k : Z) (w : word) (rows : list (Z * list word)) :
  rows_wf rows → rows_wf (rows_append k w rows).
Proof.
  unfold rows_wf. induction rows as [|[k0 ws0] rest IH]; intros [Hs Hn].
  - cbn. split; repeat constructor. discriminate.
  - cbn [rows_append]. cbn [map fst] in Hs.
    apply StronglySorted_inv in Hs as [Hs H0].
    apply List.Forall_cons_iff in Hn as [Hn0 Hn].
    destruct (k <? k0) eqn:E1.
    { apply Z.ltb_lt in E1. split.
      - cbn [map fst]. constructor; [now constructor|].
        constructor; [assumption|].
        eapply List.Forall_impl; [|exact H0]. cbv beta. intros; lia.
      - constructor; [discriminate|]. now constructor. }
    destruct (k =? k0) eqn:E2.
    { split.
      - cbn [map fst]. now constructor.
      - constructor; [|assumption]. cbn [snd]. now destruct ws0. }
    destruct (IH (conj Hs Hn)) as [Hs' Hn']. split.
    + cbn [map fst]. constructor; [assumption|].
      apply List.Forall_forall. intros k' Hk'.
      apply rows_append_keys in Hk' as [-> | Hk'].
      * apply Z.ltb_ge in E1. apply Z.eqb_neq in E2. lia.
      * rewrite List.Forall_forall in H0. now apply H0.
    + now constructor.
Qed.

Lemma rows_append_row_of (k : Z) (w : word) (rows : list (Z * list word))
    (k' : Z) :
  StronglySorted Z.lt (map fst rows) →
  row_of k' (rows_append k w rows)
  = if k' =? k then row_of k rows ++ [w] else row_of k' rows.
Proof.
  induction rows as [|[k0 ws0] rest IH]; intros Hs.
  - unfold row_of. cbn. rewrite (Z.eqb_sym k k').
    now destruct (k' =? k).
  - cbn [rows_append]. cbn [map fst] in Hs.
    apply StronglySorted_inv in Hs as [Hs H0].
    destruct (k <? k0) eqn:E1.
    { apply Z.ltb_lt in E1.
      assert (Hfresh : row_of k ((k0, ws0) :: rest) = []).
      { apply row_of_fresh. cbn [map fst]. constructor; [assumption|].
        eapply List.Forall_impl; [|exact H0]. cbv beta. intros; lia. }
      rewrite Hfresh. unfold row_of at 1. cbn [find fst snd].
      rewrite (Z.eqb_sym k k'). now destruct (k' =? k). }
    destruct (k =? k0) eqn:E2.
    { apply Z.eqb_eq in E2. subst k0. unfold row_of. cbn [find fst snd].
      rewrite (Z.eqb_sym k k'). rewrite Z.eqb_refl.
      now destruct (k' =? k). }
    unfold row_of at 1 3. cbn [find fst snd].
    destruct (k0 =? k') eqn:E3.
    + apply Z.eqb_eq in E3. subst k'.
      now rewrite (Z.eqb_sym k0 k), E2.
    + fold (row_of k' (rows_append k w rest)). fold (row_of k' rest).
      rewrite (IH Hs). destruct (k' =? k); [|reflexivity].
      unfold row_of. cbn [find fst snd]. rewrite (Z.eqb_sym k0 k), E2.
      reflexivity.
Qed.

Lemma group_rows_wf (words : list word) : rows_wf (group_rows words).
Proof.
  induction words as [|w ws IH] using rev_ind.
  - split; constructor.
  - rewrite group_rows_snoc. now apply rows_append_wf.
Qed.

Lemma group_rows_row_of (words : list word) (k : Z) :
  row_of k (group_rows words)
  = List.filter (fun w => y_key w =? k) words.
Proof.
  induction words as [|w ws IH] using rev_ind; [reflexivity|].
  rewrite group_rows_snoc, rows_append_row_of by apply group_rows_wf.
  rewrite List.filter_app. cbn [List.filter].
  rewrite (Z.eqb_sym (y_key w) k).
  destruct (k =? y_key w) eqn:E.
  - apply Z.eqb_eq in E. subst k. now rewrite IH.
  - now rewrite app_nil_r.
Qed.

Lemma row_of_In (rows : list (Z * list word)) (k : Z) (ws : list word) :
  StronglySorted Z.lt (map fst rows) → In (k, ws) rows → row_of k rows = ws.
Proof.
  unfold row_of. induction rows as [|[k0 ws0] rest IH]; [intros _ []|].
  cbn [map fst]. intros Hs Hin.
  apply StronglySorted_inv in Hs as [Hs H0]. cbn [find fst].
  destruct Hin as [[= -> ->] | Hin].
  - now rewrite Z.eqb_refl.
  - assert (Hk : k0 < k).
    { rewrite List.Forall_forall in H0. apply H0.
      apply (in_map fst) in Hin. exact Hin. }
    replace (k0 =? k) with false by (symmetry; apply Z.eqb_neq; lia).
    now apply IH.
Qed.

Lemma row_of_nonempty_In (rows : list (Z * list word)) (k : Z) :
  row_of k rows ≠ [] → In (k, row_of k rows) rows.
Proof.
  unfold row_of. destruct (find _ rows) as [[k0 ws0]|] eqn:E; [|congruence].
  intros _. apply find_some in E as [Hin Hk]. cbn [fst] in Hk.
  apply Z.eqb_eq in Hk. now subst k0.
Qed.

(** X10: the clusterer puts every token in exactly one row.  The rows come
    in strictly ascending order of their keys, none is empty, the row with
    key [k] holds exactly the tokens whose key is [k], in their order of
    arrival, and every token is in the row of its key. *)
Theorem group_rows_partition (words : list word) :
  StronglySorted Z.lt (map fst (group_rows words))
  ∧ (∀ row, In row (group_rows words) →
            snd row ≠ []
            ∧ snd row = List.filter (fun w => y_key w =? fst row) words)
  ∧ (∀ w, In w words →
          In (y_key w, List.filter (fun v => y_key v =? y_key w) words)
             (group_rows words))
  ∧ Permutation (concat (map snd (group_rows words))) words.
Proof.
  destruct (group_rows_wf words) as [Hs Hn].
  split; [exact Hs|]. split; [|split].
  - intros [k ws] Hin. cbn [fst snd]. split.
    + rewrite List.Forall_forall in Hn. apply (Hn (k, ws) Hin).
    + rewrite <- group_rows_row_of. symmetry. now apply row_of_In.
  - intros w Hw. rewrite <- group_rows_row_of.
    apply row_of_nonempty_In. rewrite group_rows_row_of.
    intros E. assert (Hin : In w (List.filter (fun v => y_key v =? y_key w)
                                              words)).
    { apply filter_In. split; [assumption | apply Z.eqb_refl]. }
    rewrite E in Hin. destruct Hin.
  - clear Hs Hn.
    induction words as [|w ws IH] using rev_ind; [constructor|].
    rewrite group_rows_snoc.
    apply Permutation_trans
      with (l' := concat (map snd (group_rows ws)) ++ [w]);
      [|now apply Permutation_app_tail].
    clear IH. generalize (group_rows ws). intros rows.
    induction rows as [|[k0 ws0] rest IH'].
    + cbn. constructor. constructor.
    + cbn [rows_append]. destruct (y_key w <? k0).
      * cbn [map snd concat]. cbn [app].
        change (ws0 ++ concat (map snd rest))
          with (concat (map snd ((k0, ws0) :: rest))).
        apply Permutation_cons_append.
      * destruct (y_key w =? k0).
        -- cbn [map snd concat]. rewrite <- !app_assoc.
           apply Permutation_app_head. apply Permutation_app_comm.
        -- cbn [map snd concat]. rewrite <- app_assoc.
           now apply Permutation_app_head.
Qed.

Lemma group_rows_partition_witness :
  In (100, [Word "b" 150 (1001 # 10); Word "a" 20 100])
     (group_rows [Word "b" 150 (1001 # 10); Word "t" 20 50; Word "a" 20 100]).
Proof.
  apply (proj1 (proj2 (proj2
           (group_rows_partition
              [Word "b" 150 (1001 # 10); Word "t" 20 50; Word "a" 20 100])))
           (Word "a" 20 100)).
  right. right. left. reflexivity.
Defined.

Lemma insert_by_x0_perm (w : word) (l : list word) :
  Permutation (insert_by_x0 w l) (w :: l).
Proof.
  induction l as [|v l IH]; cbn [insert_by_x0]; [reflexivity|].
  destruct (Qle_bool (x0 w) (x0 v)); [reflexivity|].
  rewrite IH. apply perm_swap.
Qed.

Lemma Qle_bool_false (a b : Q) : Qle_bool a b = false → (b <= a)%Q.
Proof.
  intros H. destruct (Qlt_le_dec b a) as [Hlt | Hle].
  - now apply Qlt_le_weak.
  - apply Qle_bool_iff in Hle. congruence.
Qed.

Lemma insert_by_x0_ascending (w : word) (l : list word) :
  ascending l → ascending (insert_by_x0 w l).
Proof.
  induction l as [|v l IH]; [intros _; exact I|].
  intros Hl. cbn [insert_by_x0].
  destruct (Qle_bool (x0 w) (x0 v)) eqn:E.
  - split; [now apply Qle_bool_iff | exact Hl].
  - apply Qle_bool_false in E.
    destruct l as [|u l].
    + cbn. split; [exact E | exact I].
    + destruct Hl as [Hvu Hl]. specialize (IH Hl).
      cbn [insert_by_x0] in *.
      destruct (Qle_bool (x0 w) (x0 u)); split; assumption.
Qed.

Lemma insert_by_x0_filter (q : Q) (w : word) (l : list word) :
  List.filter (fun v => Qeq_bool (x0 v) q) (insert_by_x0 w l)
  = if Qeq_bool (x0 w) q
    then w :: List.filter (fun v => Qeq_bool (x0 v) q) l
    else List.filter (fun v => Qeq_bool (x0 v) q) l.
Proof.
  induction l as [|v l IH]; cbn [insert_by_x0].
  - cbn. now destruct (Qeq_bool (x0 w) q).
  - destruct (Qle_bool (x0 w) (x0 v)) eqn:E.
    + cbn [List.filter]. now destruct (Qeq_bool (x0 w) q).
    + cbn [List.filter]. rewrite IH.
      destruct (Qeq_bool (x0 w) q) eqn:Ew; [|reflexivity].
      destruct (Qeq_bool (x0 v) q) eqn:Ev; [|reflexivity].
      exfalso. apply Qeq_bool_iff in Ew, Ev.
      assert (Hle : (x0 w <= x0 v)%Q) by (rewrite Ew, Ev; apply Qle_refl).
      apply Qle_bool_iff in Hle. congruence.
Qed.

(** X11: sorting a row by left edge is a stable sort: the result holds the
    same tokens, in ascending order of [x0], and tokens with equal [x0]
    keep the order they had. *)
Theorem sort_by_x0_stable (l : list word) :
  Permutation (sort_by_x0 l) l
  ∧ ascending (sort_by_x0 l)
  ∧ ∀ q, List.filter (fun v => Qeq_bool (x0 v) q) (sort_by_x0 l)
         = List.filter (fun v => Qeq_bool (x0 v) q) l.
Proof.
  induction l as [|w l (Hperm & Hasc & Hstable)].
  - split; [constructor|]. split; [exact I | reflexivity].
  - cbn [sort_by_x0]. split; [|split].
    + rewrite insert_by_x0_perm. now constructor.
    + now apply insert_by_x0_ascending.
    + intros q. rewrite insert_by_x0_filter, Hstable. reflexivity.
Qed.

(** ** The area above the table *)

Lemma rows_ext (r1 r2 : list (Z * list word)) :
  rows_wf r1 → rows_wf r2 → (∀ k, row_of k r1 = row_of k r2) → r1 = r2.
Proof.
  revert r2. induction r1 as [|[k1 ws1] r1 IH]; intros r2 [Hs1 Hn1] [Hs2 Hn2] H.
  - destruct r2 as [|[k2 ws2] r2]; [reflexivity|].
    specialize (H k2). unfold row_of in H. cbn [find fst snd] in H.
    rewrite Z.eqb_refl in H.
    apply List.Forall_cons_iff in Hn2 as [Hn2 _]. cbn in Hn2, H.
    exfalso. congruence.
  - cbn [map fst] in Hs1. apply StronglySorted_inv in Hs1 as [Hs1 H1].
    apply List.Forall_cons_iff in Hn1 as [Hn1 Hn1'].
    assert (Hhead1 : row_of k1 ((k1, ws1) :: r1) = ws1)
      by (unfold row_of; cbn [find fst snd]; now rewrite Z.eqb_refl).
    destruct r2 as [|[k2 ws2] r2].
    { specialize (H k1). rewrite Hhead1 in H. cbn in Hn1, H.
      exfalso. congruence. }
    cbn [map fst] in Hs2. apply StronglySorted_inv in Hs2 as [Hs2 H2].
    apply List.Forall_cons_iff in Hn2 as [Hn2 Hn2'].
    assert (Hhead2 : row_of k2 ((k2, ws2) :: r2) = ws2)
      by (unfold row_of; cbn [find fst snd]; now rewrite Z.eqb_refl).
    assert (Hk : k1 = k2).
    { destruct (Z.lt_trichotomy k1 k2) as [Hlt | [Heq | Hgt]];
        [|exact Heq|]; exfalso.
      - specialize (H k1). rewrite Hhead1, row_of_fresh in H.
        + cbn in Hn1. congruence.
        + cbn [map fst]. constructor; [assumption|].
          eapply List.Forall_impl; [|exact H2]. cbv beta. intros; lia.
      - specialize (H k2). rewrite Hhead2, row_of_fresh in H.
        + cbn in Hn2. congruence.
        + cbn [map fst]. constructor; [lia|].
          eapply List.Forall_impl; [|exact H1]. cbv beta. intros; lia. }
    subst k2.
    assert (Hws : ws1 = ws2).
    { specialize (H k1). now rewrite Hhead1, Hhead2 in H. }
    subst ws2. f_equal. apply IH; [now split | now split |].
    intros k. specialize (H k). unfold row_of in H. cbn [find fst snd] in H.
    destruct (k1 =? k) eqn:E; [|exact H].
    apply Z.eqb_eq in E. subst k.
    now rewrite !row_of_fresh.
Qed.

Lemma filter_rows_wf (p : Z → bool) (rows : list (Z * list word)) :
  rows_wf rows → rows_wf (List.filter (fun r => p (fst r)) rows).
Proof.
  unfold rows_wf. induction rows as [|[k ws] rows IH]; intros [Hs Hn];
    [split; constructor|].
  cbn [map fst] in Hs. apply StronglySorted_inv in Hs as [Hs H0].
  apply List.Forall_cons_iff in Hn as [Hn0 Hn].
  destruct (IH (conj Hs Hn)) as [Hs' Hn'].
  cbn [List.filter fst]. destruct (p k); [|now split].
  split; [|now constructor].
  cbn [map fst]. constructor; [assumption|].
  apply List.Forall_forall. intros k' Hk'.
  apply in_map_iff in Hk' as (r & <- & Hr). apply filter_In in Hr as [Hr _].
  rewrite List.Forall_forall in H0. apply H0. now apply in_map.
Qed.

Lemma row_of_filter (p : Z → bool) (rows : list (Z * list word)) (k : Z) :
  row_of k (List.filter (fun r => p (fst r)) rows)
  = if p k then row_of k rows else [].
Proof.
  unfold row_of. induction rows as [|[k0 ws0] rows IH].
  - cbn. now destruct (p k).
  - cbn [List.filter fst find].
    destruct (k0 =? k) eqn:E.
    + apply Z.eqb_eq in E. subst k0.
      destruct (p k); [cbn [find fst]; now rewrite Z.eqb_refl | exact IH].
    + destruct (p k0); [cbn [find fst]; now rewrite E | exact IH].
Qed.

Lemma filter_key_filter (p : Z → bool) (words : list word) (k : Z) :
  List.filter (fun w => y_key w =? k)
              (List.filter (fun w => p (y_key w)) words)
  = if p k then List.filter (fun w => y_key w =? k) words else [].
Proof.
  induction words as [|w ws IH]; [now destruct (p k)|].
  cbn [List.filter]. destruct (y_key w =? k) eqn:E.
  - apply Z.eqb_eq in E. rewrite E.
    destruct (p k); [|exact IH].
    cbn [List.filter]. rewrite E, Z.eqb_refl. now rewrite IH.
  - destruct (p (y_key w)); [|exact IH].
    cbn [List.filter]. now rewrite E.
Qed.

(** Clustering the tokens whose key passes a test gives the rows whose key
    passes it. *)
Lemma group_rows_filter (p : Z → bool) (words : list word) :
  group_rows (List.filter (fun w => p (y_key w)) words)
  = List.filter (fun r => p (fst r)) (group_rows words).
Proof.
  apply rows_ext.
  - apply group_rows_wf.
  - apply filter_rows_wf, group_rows_wf.
  - intros k.
    now rewrite row_of_filter, !group_rows_row_of, filter_key_filter.
Qed.

Lemma in_table_key (w : word) : in_table w = negb (y_key w <? 95).
Proof.
  unfold in_table. f_equal.
  destruct (y_key w <? 95) eqn:E.
  - apply Z.ltb_lt in E. now apply Qltb_lt, y_key_lt_95.
  - destruct (Qltb (top w) 95) eqn:Q; [|reflexivity].
    apply Qltb_lt, y_key_lt_95 in Q. apply Z.ltb_ge in E. lia.
Qed.

(** X12: what stands above the table never reaches the records.  A page
    parses as the page without the tokens whose [top] is below 95: page
    titles and column headings there open no record and add nothing to an
    open one. *)
Theorem tokens_above_table_ignored (es : list EmployeeRecord)
    (words : list word) :
  _parse_page es words = _parse_page es (List.filter in_table words).
Proof.
  unfold _parse_page.
  rewrite (filter_ext in_table (fun w => negb (y_key w <? 95)) in_table_key).
  rewrite (group_rows_filter (fun k => negb (k <? 95))).
  rewrite <- (fold_left_skip row_step (fun r => negb (fst r <? 95))).
  - reflexivity.
  - intros st [y ws] Hy. apply row_step_invisible.
    unfold row_visible. cbn [fst] in *.
    destruct (row_words_sorted (y, ws)); [reflexivity | exact Hy].
Qed.

(** ** The name of a record *)

Lemma in_band_outside (band : Z * Z) (x : Q) :
  (x < inject_Z (fst band))%Q ∨ (inject_Z (snd band) < x)%Q →
  in_band band x = false.
Proof.
  intros H. unfold in_band. apply andb_false_iff.
  destruct H as [H | H]; [left | right];
    (destruct (Qle_bool _ _) eqn:E; [|reflexivity]);
    apply Qle_bool_iff in E; exfalso; eapply Qlt_not_le; eauto.
Qed.

Lemma first_band_none (columns : list (string * (Z * Z))) (x : Q) :
  Forall (fun c => fst c = "name" ∨ in_band (snd c) x = false) columns →
  first_band columns x = None.
Proof.
  unfold first_band. induction 1 as [|c cols Hc _ IH]; [reflexivity|].
  cbn [find]. destruct Hc as [-> | ->]; cbn [negb andb String.eqb];
    [|rewrite andb_false_r]; exact IH.
Qed.

(** X13: in a header row a token in the name band that looks like a
    number (digits, possibly with dots and commas) is dropped: it is not
    part of the name and, no other band of the main table reaching into
    the name band, it is stored under no field. *)
Theorem numeric_token_in_name_band (emp : EmployeeRecord) (w : word) :
  (140 <= x0 w)%Q → (x0 w <= 350)%Q → looks_numeric (text w) = true →
  word_step main 60 emp w = emp.
Proof.
  intros Hlo Hhi Hnum. unfold word_step.
  destruct (Qltb (x0 w) 60 || Py.str_in (text w) ["Z"; "E"]); [reflexivity|].
  cbn [is_main]. replace (name_range (COLUMNS main)) with (Some (140, 350))
    by reflexivity.
  rewrite Hnum, andb_false_r, match_column_first_band, first_band_none;
    [reflexivity|].
  cbn [COLUMNS].
  repeat (constructor;
          [first [left; reflexivity
                 | right; apply in_band_outside; cbn [fst snd];
                   first [left; change (inject_Z ?z) with (z # 1); lra
                         | right; change (inject_Z ?z) with (z # 1); lra]]|]).
  constructor.
Qed.

Lemma numeric_token_in_name_band_witness :
  word_step main 60 (new_record "12345") (Word "2.500,00" 200 100)
  = new_record "12345".
Proof.
  apply numeric_token_in_name_band.
  - discriminate.
  - discriminate.
  - reflexivity.
Defined.

Lemma lstrip_idem (l : list ascii) : Py.lstrip (Py.lstrip l) = Py.lstrip l.
Proof.
  induction l as [|c l IH]; [reflexivity|].
  cbn [Py.lstrip]. destruct (Py.is_space c) eqn:E; [exact IH|].
  cbn [Py.lstrip]. now rewrite E.
Qed.

Lemma lstrip_app (a b : list ascii) :
  Py.lstrip (a ++ b)
  = match Py.lstrip a with
    | [] => Py.lstrip b
    | _ :: _ => Py.lstrip a ++ b
    end.
Proof.
  induction a as [|c a IH]; [reflexivity|].
  cbn [app Py.lstrip]. destruct (Py.is_space c); [exact IH | reflexivity].
Qed.

(** [rstrip] from the left: the first character stays unless it and all
    that follows is white space. *)
Lemma rstrip_cons (c : ascii) (l : list ascii) :
  Py.rstrip (c :: l)
  = match Py.rstrip l with
    | [] => if Py.is_space c then [] else [c]
    | _ :: _ => c :: Py.rstrip l
    end.
Proof.
  unfold Py.rstrip. cbn [rev]. rewrite lstrip_app.
  destruct (Py.lstrip (rev l)) as [|d m] eqn:E.
  - cbn [rev Py.lstrip]. now destruct (Py.is_space c).
  - rewrite rev_app_distr. cbn [rev app].
    destruct (rev m ++ [d]) eqn:E'; [|reflexivity].
    now destruct (rev m).
Qed.

Lemma rstrip_idem (l : list ascii) : Py.rstrip (Py.rstrip l) = Py.rstrip l.
Proof. unfold Py.rstrip. now rewrite rev_involutive, lstrip_idem. Qed.

Lemma lstrip_rstrip (l : list ascii) :
  Py.lstrip (Py.rstrip l) = Py.rstrip (Py.lstrip l).
Proof.
  induction l as [|c l IH]; [reflexivity|].
  rewrite rstrip_cons. cbn [Py.lstrip].
  destruct (Py.is_space c) eqn:E.
  - destruct (Py.rstrip l) as [|d m] eqn:El.
    + now rewrite <- IH.
    + cbn [Py.lstrip]. now rewrite E.
  - rewrite rstrip_cons.
    destruct (Py.rstrip l); cbn [Py.lstrip]; now rewrite E.
Qed.

Lemma strip_idem (l : list ascii) : Py.strip (Py.strip l) = Py.strip l.
Proof.
  unfold Py.strip.
  now rewrite lstrip_rstrip, lstrip_idem, rstrip_idem.
Qed.

(** X14: the name of every record of the output is free of leading and
    trailing white space: stripping it changes nothing. *)
Theorem output_name_stripped (pdf_pages : list page) (emp : EmployeeRecord) :
  In emp (parse pdf_pages) →
  str (Py.strip (chars (name emp))) = name emp.
Proof.
  intros Hin.
  set (P := fun e => str (Py.strip (chars (name e))) = name e).
  assert (Hall : Forall P (parse pdf_pages)).
  { apply parse_inv; subst P; cbv beta.
    - intros w0 rest _. unfold _parse_row. cbn [is_main andb].
      destruct (negb (String.eqb (name _) "")) eqn:E.
      + cbn [set_name name]. now rewrite chars_str, strip_idem.
      + apply negb_false_iff, String.eqb_eq in E. now rewrite E.
    - intros e l He. exact He.
    - intros e code words rt skip_x Hm _ He.
      now rewrite _parse_row_sub_row_name. }
  rewrite List.Forall_forall in Hall. now apply (Hall emp).
Qed.

Lemma output_name_stripped_witness :
  ∃ emp, parse [journal_page] = [emp] ∧ name emp = "Jane Doe"
         ∧ str (Py.strip (chars (name emp))) = name emp.
Proof.
  eexists. split; [vm_compute; reflexivity|].
  split; [vm_compute; reflexivity|].
  apply (output_name_stripped [journal_page]). left. vm_compute. reflexivity.
Defined.

Lemma lstrip_split (l : list ascii) :
  ∃ w, forallb Py.is_space w = true ∧ l = w ++ Py.lstrip l.
Proof.
  induction l as [|c l (w & Hw & Hl)]; [now exists []|].
  cbn [Py.lstrip]. destruct (Py.is_space c) eqn:E.
  - exists (c :: w). split; [cbn; now rewrite E|]. cbn [app]. now f_equal.
  - now exists [].
Qed.

Lemma matches_NB_iff (l : list ascii) :
  matches_NB l = true
  ↔ ∃ rest, Py.lstrip l = "N"%char :: "B"%char :: rest
            ∧ forallb Py.is_space rest = true.
Proof.
  unfold matches_NB. destruct (Py.lstrip l) as [|a [|b rest]].
  - split; [discriminate | intros (? & [=] & _)].
  - split; [|intros (? & [=] & _)].
    destruct a as [[] [] [] [] [] [] [] []]; discriminate.
  - destruct (ascii_dec a "N"%char) as [-> | Ha].
    + destruct (ascii_dec b "B"%char) as [-> | Hb].
      * split; [intros H; now exists rest | now intros (? & [= <-] & H)].
      * split; [|intros (? & [= ? ?] & _); congruence].
        destruct b as [[] [] [] [] [] [] [] []];
          first [discriminate | congruence].
    + split; [|intros (? & [= ? ?] & _); congruence].
      destruct a as [[] [] [] [] [] [] [] []];
        first [discriminate | congruence
              | destruct b as [[] [] [] [] [] [] [] []]; discriminate].
Qed.

Lemma count_nonspace_zero (l : list ascii) :
  forallb Py.is_space l = true →
  List.filter (fun c => negb (Py.is_space c)) l = [].
Proof.
  induction l as [|c l IH]; [reflexivity|]. cbn [forallb List.filter].
  intros H. apply andb_true_iff in H as [-> H]. cbn [negb]. auto.
Qed.

Lemma matches_NB_two (l : list ascii) :
  matches_NB l = true →
  length (List.filter (fun c => negb (Py.is_space c)) l) = 2%nat.
Proof.
  intros H. apply matches_NB_iff in H as (rest & Hl & Hrest).
  destruct (lstrip_split l) as (w & Hw & E). rewrite E, Hl.
  rewrite List.filter_app, (count_nonspace_zero w Hw).
  cbn [app List.filter]. cbn. now rewrite (count_nonspace_zero rest Hrest).
Qed.

Lemma rstrip_fixed_nonspace (p : list ascii) :
  Py.rstrip p = p → p ≠ [] →
  (1 <= length (List.filter (fun c => negb (Py.is_space c)) p))%nat.
Proof.
  intros Hp Hne.
  destruct (List.filter (fun c => negb (Py.is_space c)) p) as [|c m] eqn:E;
    [|cbn; lia].
  exfalso. apply Hne. rewrite <- Hp.
  assert (Hall : forallb Py.is_space p = true).
  { apply forallb_forall. intros c Hc.
    destruct (Py.is_space c) eqn:Ec; [reflexivity|].
    assert (Hin : In c (List.filter (fun c => negb (Py.is_space c)) p))
      by (apply filter_In; now rewrite Ec).
    rewrite E in Hin. destruct Hin. }
  unfold Py.rstrip. rewrite lstrip_all_space; [reflexivity|].
  rewrite forallb_forall in *. intros c Hc. apply Hall.
  now apply in_rev.
Qed.

Lemma rstrip_fixed_tail (c : ascii) (p : list ascii) :
  Py.rstrip (c :: p) = c :: p → Py.rstrip p = p.
Proof.
  rewrite rstrip_cons. destruct (Py.rstrip p) as [|d m].
  - destruct (Py.is_space c); [discriminate|]. now intros [= <-].
  - now intros [= <-].
Qed.

(** X15: the closing step of a header row takes the marker off the name.
    From a name that ends with NB, white space before and after it
    allowed, everything from that white space on is cut; a name that does
    not end that way is left as it is. *)
Theorem sub_NB_marker :
  (∀ p w1 w2,
     Py.rstrip p = p → forallb Py.is_space w1 = true →
     forallb Py.is_space w2 = true →
     sub_NB (p ++ w1 ++ "N"%char :: "B"%char :: w2) = p)
  ∧ (∀ l,
       (∀ q w, forallb Py.is_space w = true →
               l ≠ q ++ "N"%char :: "B"%char :: w) →
       sub_NB l = l).
Proof.
  split.
  - intros p w1 w2 Hp Hw1 Hw2. induction p as [|c p IH].
    + cbn [app]. assert (Hm : matches_NB (w1 ++ "N"%char :: "B"%char :: w2)
                               = true).
      { apply matches_NB_iff. exists w2. split; [|assumption].
        rewrite lstrip_app, (lstrip_all_space w1 Hw1). reflexivity. }
      destruct (w1 ++ "N"%char :: "B"%char :: w2);
        cbn [sub_NB]; now rewrite Hm.
    + cbn [app sub_NB].
      destruct (matches_NB (c :: p ++ w1 ++ "N"%char :: "B"%char :: w2))
        eqn:Hm.
      * exfalso. apply matches_NB_two in Hm.
        change (c :: p ++ w1 ++ "N"%char :: "B"%char :: w2)
          with ((c :: p) ++ w1 ++ "N"%char :: "B"%char :: w2) in Hm.
        rewrite !List.filter_app, !length_app in Hm.
        rewrite (count_nonspace_zero w1 Hw1) in Hm.
        assert (H2 : (1 <= length (List.filter
                                     (fun c => negb (Py.is_space c))
                                     (c :: p)))%nat)
          by (apply rstrip_fixed_nonspace; [exact Hp | discriminate]).
        set (n := length (List.filter (fun c => negb (Py.is_space c))
                                      (c :: p))) in *.
        clearbody n.
        cbn [List.filter] in Hm.
        change (negb (Py.is_space "N")) with true in Hm.
        change (negb (Py.is_space "B")) with true in Hm.
        cbn [length] in Hm. lia.
      * f_equal. apply IH. now apply rstrip_fixed_tail in Hp.
  - intros l. induction l as [|c l IH]; intros H; [reflexivity|].
    cbn [sub_NB]. destruct (matches_NB (c :: l)) eqn:Hm.
    + exfalso. apply matches_NB_iff in Hm as (rest & Hl & Hrest).
      destruct (lstrip_split (c :: l)) as (w & _ & E).
      rewrite Hl in E. exact (H w rest Hrest E).
    + f_equal. apply IH. intros q w Hw ->.
      apply (H (c :: q) w Hw). reflexivity.
Qed.

Lemma sub_NB_marker_witness :
  sub_NB (chars "Jane Doe  NB ") = chars "Jane Doe"
  ∧ sub_NB (chars "Jane NBA") = chars "Jane NBA".
Proof.
  split.
  - apply (proj1 sub_NB_marker (chars "Jane Doe") (chars "  ") (chars " "));
      reflexivity.
  - apply (proj2 sub_NB_marker (chars "Jane NBA")).
    intros q w Hw E.
    apply (f_equal (@rev ascii)) in E. rewrite rev_app_distr in E.
    cbn [rev chars app] in E.
    destruct (rev w) as [|d m] eqn:Ew.
    + cbn in E. discriminate E.
    + assert (Hd : Py.is_space d = true).
      { rewrite forallb_forall in Hw. apply Hw, in_rev.
        rewrite Ew. now left. }
      cbn in E. injection E as E _. subst d. discriminate Hd.
Defined.

(** ** The name of a table *)

Lemma sanitize_char_safe (c : ascii) :
  is_table_char (if is_table_char c then c else "_"%char) = true.
Proof. destruct (is_table_char c) eqn:E; [exact E | reflexivity]. Qed.

(** X16: the table name that [create_table] and [insert_employees] use
    holds only letters, digits and underscores, whatever name they are
    given, and has the length of that name.  Cleaning a cleaned name
    changes nothing, so the table a name creates is the table the same name
    inserts into, also when the caller has cleaned the name before; a name
    that is clean already is used as it is. *)
Theorem sanitize_table_name_safe (table_name : string) :
  forallb is_table_char (chars (sanitize_table_name table_name)) = true
  ∧ String.length (sanitize_table_name table_name) = String.length table_name
  ∧ sanitize_table_name (sanitize_table_name table_name)
    = sanitize_table_name table_name
  ∧ (forallb is_table_char (chars table_name) = true →
     sanitize_table_name table_name = table_name).
Proof.
  unfold sanitize_table_name.
  assert (Hsafe : ∀ l, forallb is_table_char
                         (map (fun c => if is_table_char c then c
                                        else "_"%char) l) = true).
  { induction l as [|c l IH]; [reflexivity|]. cbn [map forallb].
    now rewrite sanitize_char_safe, IH. }
  assert (Hid : ∀ l, forallb is_table_char l = true →
                     map (fun c => if is_table_char c then c else "_"%char) l
                     = l).
  { induction l as [|c l IH]; [reflexivity|]. cbn [map forallb].
    intros H. apply andb_true_iff in H as [Hc Hl]. now rewrite Hc, IH. }
  split; [|split; [|split]].
  - rewrite chars_str. apply Hsafe.
  - rewrite <- !length_chars, chars_str. apply length_map.
  - rewrite chars_str. f_equal. apply Hid, Hsafe.
  - intros H. rewrite (Hid _ H). apply str_chars.
Qed.

Lemma sanitize_table_name_safe_witness :
  sanitize_table_name "lohnjournal_Januar_2024" = "lohnjournal_Januar_2024"
  ∧ sanitize_table_name "x; DROP TABLE y" = "x__DROP_TABLE_y".
Proof.
  split; [|reflexivity].
  apply (sanitize_table_name_safe "lohnjournal_Januar_2024"). reflexivity.
Defined.

(** ** The metadata of a document *)

Lemma span_app (cls : ascii → bool) (l : list ascii) :
  l = fst (span cls l) ++ snd (span cls l).
Proof.
  induction l as [|c l IH]; [reflexivity|]. cbn [span].
  destruct (cls c); [|reflexivity].
  destruct (span cls l) as [run rest]. cbn [fst snd app] in *. now f_equal.
Qed.

Lemma span_all (cls : ascii → bool) (l : list ascii) :
  forallb cls (fst (span cls l)) = true.
Proof.
  induction l as [|c l IH]; [reflexivity|]. cbn [span].
  destruct (cls c) eqn:E; [|reflexivity].
  destruct (span cls l) as [run rest]. cbn [fst forallb] in *.
  now rewrite E.
Qed.

Lemma strip_literal_app (lit l rest : list ascii) :
  strip_literal lit l = Some rest → l = lit ++ rest.
Proof.
  revert l. induction lit as [|a lit IH]; intros l.
  - cbn. now intros [= ->].
  - destruct l as [|b l]; [discriminate|]. cbn [strip_literal].
    destruct (Ascii.eqb a b) eqn:E; [|discriminate].
    apply Ascii.eqb_eq in E. subst b. intros H. cbn [app]. f_equal. auto.
Qed.

Lemma re_search_some (m : list ascii → option (list ascii))
    (l g : list ascii) :
  re_search m l = Some g → ∃ a b, l = a ++ b ∧ m b = Some g.
Proof.
  induction l as [|c l IH]; cbn [re_search].
  - destruct (m []) eqn:E; [|discriminate]. intros [= ->]. now exists [], [].
  - destruct (m (c :: l)) eqn:E.
    + intros [= ->]. now exists [], (c :: l).
    + intros H. destruct (IH H) as (a & b & -> & Hb).
      now exists (c :: a), b.
Qed.

Lemma match_label_some (label : list ascii) (cls : ascii → bool)
    (l g : list ascii) :
  match_label label cls l = Some g →
  g ≠ [] ∧ forallb cls g = true
  ∧ ∃ ws rest, forallb Py.is_space ws = true ∧ l = label ++ ws ++ g ++ rest.
Proof.
  unfold match_label.
  destruct (strip_literal label l) as [rest|] eqn:E; [|discriminate].
  apply strip_literal_app in E.
  pose proof (span_all cls (Py.lstrip rest)) as Hall.
  pose proof (span_app cls (Py.lstrip rest)) as Happ.
  destruct (lstrip_split rest) as (ws & Hws & Hrest).
  destruct (fst (span cls (Py.lstrip rest))) as [|c run] eqn:Eg;
    [discriminate|].
  intros [= <-]. split; [discriminate|]. split; [exact Hall|].
  exists ws, (snd (span cls (Py.lstrip rest))). split; [exact Hws|].
  rewrite E, Hrest at 1. now rewrite Happ at 1.
Qed.

Lemma span_cases (cls : ascii → bool) (l : list ascii) :
  ∃ run rest, span cls l = (run, rest) ∧ l = run ++ rest
              ∧ forallb cls run = true.
Proof.
  exists (fst (span cls l)), (snd (span cls l)).
  split; [now destruct (span cls l)|]. split; [apply span_app|apply span_all].
Qed.

Lemma match_monat_some (l g : list ascii) :
  match_monat l = Some g →
  ∃ ws1 w ws year rest,
    g = w ++ ws ++ year
    ∧ l = chars "Lohnjournal" ++ ws1 ++ g ++ rest
    ∧ forallb Py.is_space ws1 = true
    ∧ w ≠ [] ∧ forallb is_word w = true
    ∧ ws ≠ [] ∧ forallb Py.is_space ws = true
    ∧ length year = 4%nat ∧ forallb Py.is_decimal year = true.
Proof.
  unfold match_monat.
  destruct (strip_literal (chars "Lohnjournal") l) as [rest|] eqn:E;
    [|discriminate].
  apply strip_literal_app in E.
  destruct (span_cases Py.is_space rest) as (ws1 & rest1 & -> & H1 & Hws1).
  destruct ws1 as [|s1 ws1]; [discriminate|].
  destruct (span_cases is_word rest1) as (w & rest2 & -> & H2 & Hw).
  destruct w as [|c w]; [discriminate|].
  destruct (span_cases Py.is_space rest2) as (ws & rest3 & -> & H3 & Hws).
  destruct ws as [|s ws]; [discriminate|].
  cbv zeta.
  destruct ((length (take 4 rest3) =? 4)%nat
            && forallb Py.is_decimal (take 4 rest3)) eqn:Ey; [|discriminate].
  apply andb_true_iff in Ey as [Hlen Hdig]. apply Nat.eqb_eq in Hlen.
  intros [= <-].
  exists (s1 :: ws1), (c :: w), (s :: ws), (take 4 rest3), (drop 4 rest3).
  split; [reflexivity|]. split.
  - rewrite E, H1, H2, H3. rewrite <- (take_drop 4 rest3) at 1.
    do 3 (cbn [app]; rewrite <- ?app_assoc). reflexivity.
  - repeat split; try assumption; discriminate.
Qed.

Lemma find_fresh {A} (k : string) (pats : list (string * A)) :
  ¬ In k (map fst pats) →
  find (fun kp => String.eqb (fst kp) k) pats = None.
Proof.
  induction pats as [|[k0 m0] pats IH]; [reflexivity|].
  cbn [map fst In find]. intros H.
  destruct (String.eqb k0 k) eqn:E.
  - apply String.eqb_eq in E. tauto.
  - apply IH. tauto.
Qed.

(** What the loop over the patterns leaves under a key. *)
Lemma patterns_lookup (text : list ascii)
    (pats : list (string * (list ascii → option (list ascii))))
    (md : gmap string string) (k : string) :
  List.NoDup (map fst pats) →
  fold_left (fun md kp =>
               match re_search (snd kp) text with
               | Some g => <[fst kp := str g]> md
               | None => md
               end) pats md !! k
  = match find (fun kp => String.eqb (fst kp) k) pats with
    | Some kp =>
        match re_search (snd kp) text with
        | Some g => Some (str g)
        | None => md !! k
        end
    | None => md !! k
    end.
Proof.
  revert md. induction pats as [|[k0 m0] pats IH]; intros md Hnd;
    [reflexivity|].
  cbn [map fst] in Hnd. apply List.NoDup_cons_iff in Hnd as [Hk0 Hnd].
  cbn [fold_left find fst snd]. rewrite (IH _ Hnd).
  destruct (String.eqb k0 k) eqn:E.
  - apply String.eqb_eq in E. subst k0.
    rewrite (find_fresh k pats Hk0). cbn [fst snd].
    destruct (re_search m0 text); [apply lookup_insert_eq | reflexivity].
  - apply String.eqb_neq in E.
    assert (Hmd : (match re_search m0 text with
                   | Some g => <[k0 := str g]> md
                   | None => md
                   end) !! k = md !! k).
    { destruct (re_search m0 text); [now apply lookup_insert_ne|reflexivity]. }
    now rewrite Hmd.
Qed.

Lemma _extract_metadata_lookup (md : gmap string string) (p : page)
    (k : string) :
  _extract_metadata md p !! k
  = match find (fun kp => String.eqb (fst kp) k) metadata_patterns with
    | Some kp =>
        match re_search (snd kp) (chars (extract_text p)) with
        | Some g => Some (str g)
        | None => md !! k
        end
    | None => md !! k
    end.
Proof.
  unfold _extract_metadata. apply patterns_lookup.
  cbn. repeat constructor; cbn; intuition discriminate.
Qed.

Lemma filter_head_split {A} (f : A → bool) (l : list A) (p : A)
    (rest : list A) :
  List.filter f l = p :: rest →
  ∃ ps1 ps2, l = ps1 ++ p :: ps2
             ∧ Forall (fun q => f q = false) ps1 ∧ f p = true.
Proof.
  induction l as [|q l IH]; [discriminate|]. cbn [List.filter].
  destruct (f q) eqn:E.
  - intros [= -> _]. exists [], l. split; [reflexivity|]. now split.
  - intros H. destruct (IH H) as (ps1 & ps2 & -> & Hps1 & Hp).
    exists (q :: ps1), ps2. split; [reflexivity|]. split; [|exact Hp].
    now constructor.
Qed.

Lemma filter_head_first {A} (f : A → bool) (ps1 ps2 : list A) (p : A) :
  Forall (fun q => f q = false) ps1 → f p = true →
  List.filter f (ps1 ++ p :: ps2) = p :: List.filter f ps2.
Proof.
  intros Hps1 Hp. induction Hps1 as [|q ps1 Hq _ IH].
  - cbn. now rewrite Hp.
  - cbn [app List.filter]. now rewrite Hq.
Qed.

(** What a successful search of one of the four patterns has found. *)
Lemma metadata_pattern_found (k : string)
    (m : list ascii → option (list ascii)) (text g : list ascii) :
  In (k, m) metadata_patterns → re_search m text = Some g →
  g ≠ []
  ∧ (∃ ws, forallb Py.is_space ws = true
           ∧ occurs (metadata_label k ++ ws ++ g) text)
  ∧ ((k = "berater" ∨ k = "mandant") → forallb Py.is_decimal g = true)
  ∧ (k = "datum" → forallb is_date_char g = true)
  ∧ (k = "monat" →
     ∃ w ws year,
       g = w ++ ws ++ year
       ∧ w ≠ [] ∧ forallb is_word w = true
       ∧ ws ≠ [] ∧ forallb Py.is_space ws = true
       ∧ length year = 4%nat ∧ forallb Py.is_decimal year = true).
Proof.
  intros Hin Hs. apply re_search_some in Hs as (a & b & -> & Hm).
  cbn [metadata_patterns In] in Hin.
  destruct Hin as [[= <- <-] | [[= <- <-] | [[= <- <-] | [[= <- <-] | []]]]].
  1-3: apply match_label_some in Hm as (Hne & Hall & ws & rest & Hws & ->);
    (split; [exact Hne|]);
    (split; [exists ws; split; [exact Hws|];
             exists a, rest; cbn [metadata_label String.eqb Ascii.eqb Bool.eqb];
             now rewrite <- !app_assoc|]);
    (split; [intros H; first [exact Hall
                             | destruct H as [H | H]; discriminate H]|]);
    (split; [intros H; first [exact Hall | discriminate H]|]);
    intros H; discriminate H.
  apply match_monat_some in Hm
    as (ws1 & w & ws & year & rest & -> & -> & Hws1 & Hw1 & Hw2 & Hs1 & Hs2
        & Hy1 & Hy2).
  split; [destruct w; [congruence | discriminate]|].
  split.
  { exists ws1. split; [exact Hws1|].
    exists a, rest. cbn [metadata_label String.eqb Ascii.eqb Bool.eqb].
    now rewrite <- !app_assoc. }
  split; [intros [H | H]; discriminate H|].
  split; [discriminate|].
  intros _. exists w, ws, year. repeat split; assumption.
Qed.

Lemma metadata_pattern_of (k : string)
    (kp : string * (list ascii → option (list ascii))) :
  find (fun kp => String.eqb (fst kp) k) metadata_patterns = Some kp →
  In (k, snd kp) metadata_patterns.
Proof.
  intros H. apply find_some in H as [Hin Hk].
  apply String.eqb_eq in Hk. subst k. now destruct kp.
Qed.

(** X17: whatever the metadata of a document holds was read off its first
    journal page: the key is one of [berater], [mandant], [datum] and
    [monat], and the value is not empty and stands in the text of that page
    behind the label of its key, white space between them allowed.  The
    values of [berater] and [mandant] are digit runs, that of [datum] is
    made of digits and dots, that of [monat] is a word, white space and
    four digits. *)
Theorem metadata_from_first_page (pdf_pages : list page) (k v : string) :
  parse_metadata pdf_pages !! k = Some v →
  ∃ ps1 p ps2,
    pdf_pages = ps1 ++ p :: ps2
    ∧ Forall (fun q => is_lohnjournal_page q = false) ps1
    ∧ is_lohnjournal_page p = true
    ∧ In k ["berater"; "mandant"; "datum"; "monat"]
    ∧ v ≠ ""
    ∧ (∃ ws, forallb Py.is_space ws = true
             ∧ occurs (metadata_label k ++ ws ++ chars v)
                      (chars (extract_text p)))
    ∧ ((k = "berater" ∨ k = "mandant") →
       forallb Py.is_decimal (chars v) = true)
    ∧ (k = "datum" → forallb is_date_char (chars v) = true)
    ∧ (k = "monat" →
       ∃ w ws year,
         chars v = w ++ ws ++ year
         ∧ w ≠ [] ∧ forallb is_word w = true
         ∧ ws ≠ [] ∧ forallb Py.is_space ws = true
         ∧ length year = 4%nat ∧ forallb Py.is_decimal year = true).
Proof.
  unfold parse_metadata.
  destruct (List.filter is_lohnjournal_page pdf_pages) as [|p rest] eqn:Hf.
  { rewrite lookup_empty. discriminate. }
  apply filter_head_split in Hf as (ps1 & ps2 & -> & Hps1 & Hp).
  rewrite _extract_metadata_lookup, lookup_empty.
  destruct (find _ metadata_patterns) as [kp|] eqn:Hfind; [|discriminate].
  apply metadata_pattern_of in Hfind.
  destruct (re_search (snd kp) (chars (extract_text p))) as [g|] eqn:Hs;
    [|discriminate].
  intros [= <-].
  destruct (metadata_pattern_found k (snd kp) _ g Hfind Hs)
    as (Hne & Hocc & Hnum & Hdate & Hmonat).
  exists ps1, p, ps2. rewrite chars_str.
  split; [reflexivity|]. split; [exact Hps1|]. split; [exact Hp|].
  split.
  { apply (in_map fst) in Hfind. exact Hfind. }
  split.
  { intros E. apply Hne. apply (str_inj g []). exact E. }
  repeat split; assumption.
Qed.

Lemma metadata_from_first_page_witness :
  ∃ ps1 p ps2,
    [Page "Deckblatt" [];
     Page "Lohnjournal  Mai 2024 Form.-Nr.LOA313 Mandant: 678 " [];
     Page "Lohnjournal Juni 2024 Form.-Nr.LOA313 Mandant: 999" []]
    = ps1 ++ p :: ps2
    ∧ extract_text p = "Lohnjournal  Mai 2024 Form.-Nr.LOA313 Mandant: 678 "
    ∧ forallb Py.is_decimal (chars "678") = true.
Proof.
  destruct (metadata_from_first_page
              [Page "Deckblatt" [];
               Page "Lohnjournal  Mai 2024 Form.-Nr.LOA313 Mandant: 678 " [];
               Page "Lohnjournal Juni 2024 Form.-Nr.LOA313 Mandant: 999" []]
              "mandant" "678")
    as (ps1 & p & ps2 & Hsplit & Hps1 & Hp & _ & _ & _ & Hnum & _).
  - reflexivity.
  - exists ps1, p, ps2. split; [exact Hsplit|]. split.
    + destruct ps1 as [|q1 [|q2 ps1]].
      * injection Hsplit as <- _. discriminate Hp.
      * injection Hsplit as _ <- _. reflexivity.
      * exfalso. injection Hsplit as <- <- Hrest.
        apply List.Forall_cons_iff in Hps1 as [_ Hps1].
        apply List.Forall_cons_iff in Hps1 as [Hq2 _]. discriminate Hq2.
    + apply Hnum. right. reflexivity.
Defined.

(** X18: a key is never made up.  Without a journal page the metadata are
    empty.  With one, the pages after the first journal page are not
    looked at, and a key whose label does not stand in the text of that
    first page is absent. *)
Theorem metadata_absent (pdf_pages : list page) :
  (Forall (fun q => is_lohnjournal_page q = false) pdf_pages →
   parse_metadata pdf_pages = ∅)
  ∧ ∀ ps1 p ps2,
      pdf_pages = ps1 ++ p :: ps2 →
      Forall (fun q => is_lohnjournal_page q = false) ps1 →
      is_lohnjournal_page p = true →
      parse_metadata pdf_pages = _extract_metadata ∅ p
      ∧ ∀ k, ¬ occurs (metadata_label k) (chars (extract_text p)) →
             parse_metadata pdf_pages !! k = None.
Proof.
  split.
  - intros Hnone. unfold parse_metadata.
    replace (List.filter is_lohnjournal_page pdf_pages) with (@nil page);
      [reflexivity|].
    symmetry. induction Hnone as [|q ps Hq _ IH]; [reflexivity|].
    cbn [List.filter]. now rewrite Hq.
  - intros ps1 p ps2 -> Hps1 Hp.
    assert (Hmd : parse_metadata (ps1 ++ p :: ps2) = _extract_metadata ∅ p).
    { unfold parse_metadata. now rewrite filter_head_first. }
    split; [exact Hmd|]. intros k Hno. rewrite Hmd.
    rewrite _extract_metadata_lookup, lookup_empty.
    destruct (find _ metadata_patterns) as [kp|] eqn:Hfind; [|reflexivity].
    apply metadata_pattern_of in Hfind.
    destruct (re_search (snd kp) (chars (extract_text p))) as [g|] eqn:Hs;
      [|reflexivity].
    exfalso. apply Hno.
    destruct (metadata_pattern_found k (snd kp) _ g Hfind Hs)
      as (_ & (ws & _ & a & b & Hocc) & _).
    exists a, ((ws ++ g) ++ b). rewrite Hocc. now rewrite <- !app_assoc.
Qed.

Lemma metadata_absent_witness :
  parse_metadata [Page "Deckblatt Mandant: 1" []] = ∅
  ∧ parse_metadata
      [Page "Lohnjournal Form.-Nr.LOA313" [];
       Page "Lohnjournal Form.-Nr.LOA313 Mandant: 678" []]
    = _extract_metadata
        ∅ (Page "Lohnjournal Form.-Nr.LOA313" []).
Proof.
  split.
  - apply (proj1 (metadata_absent [Page "Deckblatt Mandant: 1" []])).
    repeat constructor.
  - apply (proj2 (metadata_absent
                    [Page "Lohnjournal Form.-Nr.LOA313" [];
                     Page "Lohnjournal Form.-Nr.LOA313 Mandant: 678" []])
                 [] (Page "Lohnjournal Form.-Nr.LOA313" [])
                 [Page "Lohnjournal Form.-Nr.LOA313 Mandant: 678" []]).
    + reflexivity.
    + constructor.
    + reflexivity.
Defined.

Lemma strip_literal_self (lit rest : list ascii) :
  strip_literal lit (lit ++ rest) = Some rest.
Proof.
  induction lit as [|a lit IH]; [reflexivity|].
  cbn [app strip_literal]. now rewrite Ascii.eqb_refl.
Qed.

Lemma strip_literal_prefix (lit x y r : list ascii) :
  strip_literal lit (x ++ y) = Some r → (length lit <= length x)%nat →
  ∃ b, x = lit ++ b.
Proof.
  revert x. induction lit as [|a lit IH]; intros x H Hlen.
  - now exists x.
  - destruct x as [|c x]; [cbn in Hlen; lia|].
    cbn [app strip_literal] in H.
    destruct (Ascii.eqb a c) eqn:E; [|discriminate].
    apply Ascii.eqb_eq in E. subst c.
    destruct (IH x H) as (b & ->); [cbn in Hlen; lia|]. now exists b.
Qed.

Lemma span_run (cls : ascii → bool) (g rest : list ascii) :
  forallb cls g = true → (∀ c tl, rest = c :: tl → cls c = false) →
  span cls (g ++ rest) = (g, rest).
Proof.
  intros Hg Hrest. induction g as [|c g IH].
  - cbn [app]. destruct rest as [|c tl]; [reflexivity|].
    cbn [span]. now rewrite (Hrest c tl eq_refl).
  - cbn [forallb] in Hg. apply andb_true_iff in Hg as [Hc Hg].
    cbn [app span]. now rewrite Hc, (IH Hg).
Qed.

(** The search finds the first place where the label stands, when a value
    follows it there. *)
Lemma re_search_match_label (label : list ascii) (cls : ascii → bool)
    (pre ws g rest : list ascii) :
  label ≠ [] →
  (∀ c, cls c = true → Py.is_space c = false) →
  ¬ occurs label (pre ++ removelast label) →
  forallb Py.is_space ws = true → g ≠ [] → forallb cls g = true →
  (∀ c tl, rest = c :: tl → cls c = false) →
  re_search (match_label label cls) (pre ++ label ++ ws ++ g ++ rest)
  = Some g.
Proof.
  intros Hlabel Hcls Hpre Hws Hne Hg Hrest.
  assert (Hhere : match_label label cls (label ++ ws ++ g ++ rest) = Some g).
  { unfold match_label. rewrite strip_literal_self.
    rewrite lstrip_app, (lstrip_all_space ws Hws).
    destruct g as [|c g]; [congruence|].
    assert (Hc : Py.is_space c = false).
    { apply Hcls. cbn [forallb] in Hg. now apply andb_true_iff in Hg as [? _]. }
    cbn [app Py.lstrip]. rewrite Hc.
    change (c :: g ++ rest) with ((c :: g) ++ rest).
    now rewrite (span_run cls (c :: g) rest Hg Hrest). }
  induction pre as [|c pre IH].
  - cbn [app]. destruct (label ++ ws ++ g ++ rest);
      cbn [re_search]; now rewrite Hhere.
  - cbn [app re_search].
    destruct (match_label label cls (c :: pre ++ label ++ ws ++ g ++ rest))
      as [g'|] eqn:Hm.
    + exfalso. apply Hpre. unfold match_label in Hm.
      destruct (strip_literal label
                  (c :: pre ++ label ++ ws ++ g ++ rest)) as [r|] eqn:Hr;
        [|discriminate].
      rewrite (app_removelast_last "_"%char Hlabel) in Hr at 2.
      change (c :: pre ++ (removelast label ++ [List.last label "_"%char])
                     ++ ws ++ g ++ rest)
        with ((c :: pre) ++ (removelast label ++ [List.last label "_"%char])
                         ++ ws ++ g ++ rest) in Hr.
      rewrite <- app_assoc, app_assoc in Hr.
      apply strip_literal_prefix in Hr as (b & Hb).
      * exists [], b. exact Hb.
      * rewrite length_app. cbn [length].
        rewrite (app_removelast_last "_"%char Hlabel) at 1.
        rewrite length_app. cbn [length]. lia.
    + apply IH. intros (a & b & Hab). apply Hpre.
      exists (c :: a), b. cbn [app]. now rewrite Hab.
Qed.

Lemma occurs_occursb (needle hay : list ascii) :
  occurs needle hay → occursb needle hay = true.
Proof.
  intros (a & b & ->). induction a as [|c a IH].
  - cbn [app]. destruct (needle ++ b) eqn:E; cbn [occursb];
      rewrite <- E, strip_literal_self; reflexivity.
  - cbn [app occursb]. rewrite IH.
    now destruct (strip_literal needle (c :: a ++ needle ++ b)).
Qed.

(** X19: a value that follows its label is found.  When the text of the
    page holds the label [Berater:], [Mandant:] or [Datum:] for the first
    time at some place and, after white space or none, a run of characters
    of the value's class follows that ends at the end of the text or at a
    character outside the class, the key holds exactly that run. *)
Theorem metadata_label_found (md : gmap string string) (p : page)
    (key : string) (cls : ascii → bool) (pre ws g rest : list ascii) :
  In (key, cls) [("berater", Py.is_decimal); ("mandant", Py.is_decimal);
                 ("datum", is_date_char)] →
  chars (extract_text p) = pre ++ metadata_label key ++ ws ++ g ++ rest →
  ¬ occurs (metadata_label key) (pre ++ removelast (metadata_label key)) →
  forallb Py.is_space ws = true → g ≠ [] → forallb cls g = true →
  (∀ c tl, rest = c :: tl → cls c = false) →
  _extract_metadata md p !! key = Some (str g).
Proof.
  intros Hin Htext Hpre Hws Hne Hg Hrest.
  assert (Hdate : ∀ c, is_date_char c = true → Py.is_space c = false).
  { intros c Hc. unfold is_date_char in Hc.
    apply orb_true_iff in Hc as [Hc | Hc]; [now apply decimal_not_space|].
    apply Ascii.eqb_eq in Hc. now subst c. }
  rewrite _extract_metadata_lookup, Htext.
  destruct Hin as [[= <- <-] | [[= <- <-] | [[= <- <-] | []]]];
    cbn [metadata_patterns find fst snd String.eqb Ascii.eqb Bool.eqb];
    cbn [metadata_label String.eqb Ascii.eqb Bool.eqb] in *;
    rewrite re_search_match_label; try reflexivity; try assumption;
    try discriminate; try exact decimal_not_space.
Qed.

Lemma metadata_label_found_witness :
  _extract_metadata
    ∅ (Page "Lohnjournal Mai 2024 Berater: 12345 Mandant:678 Datum: x" [])
    !! "mandant" = Some "678".
Proof.
  apply (metadata_label_found
           ∅ _ "mandant" Py.is_decimal
           (chars "Lohnjournal Mai 2024 Berater: 12345 ") []
           (chars "678") (chars " Datum: x")).
  - right. left. reflexivity.
  - reflexivity.
  - intros H. apply occurs_occursb in H. discriminate H.
  - reflexivity.
  - discriminate.
  - reflexivity.
  - intros c tl [= <- _]. reflexivity.
Defined.

(** ** Month and year of a file name *)

Lemma decimal_is_word (c : ascii) : Py.is_decimal c = true → is_word c = true.
Proof.
  intros H. unfold is_word. cbv zeta. now rewrite H.
Qed.

Lemma drop_length_add {A} (m x : list A) (k : nat) :
  drop (length m + k) (m ++ x) = drop k x.
Proof. induction m as [|c m IH]; [reflexivity | exact IH]. Qed.

Lemma take_length_app {A} (m x : list A) : take (length m) (m ++ x) = m.
Proof.
  induction m as [|c m IH]; [now destruct x|]. cbn. now f_equal.
Qed.

Lemma try_split_skip (n : nat) (l : list ascii) :
  strip_literal ["_"%char] (drop (S n) l) = None →
  try_split (S n) l = try_split n l.
Proof. intros H. cbn [try_split]. now rewrite H. Qed.

Lemma strip_underscore_none (c : ascii) (l : list ascii) :
  Ascii.eqb "_"%char c = false → strip_literal ["_"%char] (c :: l) = None.
Proof. intros H. cbn [strip_literal]. now rewrite H. Qed.

Lemma decimal_not_underscore (c : ascii) :
  Py.is_decimal c = true → Ascii.eqb "_"%char c = false.
Proof.
  intros H. apply Ascii.eqb_neq. intros <-. discriminate H.
Qed.

(** X20: from a file name that starts with a word without underscore,
    followed by an underscore, four digits and then the end or a character
    that is no word character (as in [Januar_2025.pdf]), the word is the
    month name, the four digits are the year, and the month number is the
    entry of the word in [MONTH_ORDER], or 0 when it has none. *)
Theorem extract_month_year_of_name (m y rest : list ascii) :
  m ≠ [] → forallb is_word m = true →
  forallb (fun c => negb (Ascii.eqb "_"%char c)) m = true →
  length y = 4%nat → forallb Py.is_decimal y = true →
  (∀ c tl, rest = c :: tl → is_word c = false) →
  extract_month_year (str (m ++ "_"%char :: y ++ rest))
  = (Some (str m), Some (Py.int_of y), month_order (str m)).
Proof.
  intros Hm Hword Hund Hlen Hdig Hrest.
  destruct y as [|d1 [|d2 [|d3 [|d4 [|]]]]]; try discriminate Hlen.
  cbn [forallb] in Hdig.
  apply andb_true_iff in Hdig as [H1 Hdig].
  apply andb_true_iff in Hdig as [H2 Hdig].
  apply andb_true_iff in Hdig as [H3 Hdig].
  apply andb_true_iff in Hdig as [H4 _].
  set (y := [d1; d2; d3; d4]).
  set (l := m ++ "_"%char :: y ++ rest).
  assert (Hspan : span is_word l = (m ++ "_"%char :: y, rest)).
  { subst l.
    change (m ++ "_"%char :: y ++ rest) with (m ++ ("_"%char :: y) ++ rest).
    rewrite app_assoc. apply span_run; [|exact Hrest].
    rewrite forallb_app, Hword. subst y. cbn [forallb andb].
    rewrite (decimal_is_word d1 H1), (decimal_is_word d2 H2),
      (decimal_is_word d3 H3), (decimal_is_word d4 H4). reflexivity. }
  assert (Htry : try_split (length m + 5) l = Some (m, y)).
  { assert (Hdrop : ∀ k, drop (length m + k) l
                         = drop k ("_"%char :: y ++ rest))
      by (intros k; apply drop_length_add).
    replace (length m + 5)%nat with (S (length m + 4)) by lia.
    rewrite try_split_skip.
    2:{ replace (S (length m + 4)) with (length m + 5)%nat by lia.
        rewrite Hdrop. subst y. cbn [drop app].
        destruct rest as [|c tl]; [reflexivity|].
        apply strip_underscore_none. apply Ascii.eqb_neq. intros <-.
        specialize (Hrest _ _ eq_refl). discriminate Hrest. }
    replace (length m + 4)%nat with (S (length m + 3)) by lia.
    rewrite try_split_skip.
    2:{ replace (S (length m + 3)) with (length m + 4)%nat by lia.
        rewrite Hdrop. subst y. cbn [drop app].
        now apply strip_underscore_none, decimal_not_underscore. }
    replace (length m + 3)%nat with (S (length m + 2)) by lia.
    rewrite try_split_skip.
    2:{ replace (S (length m + 2)) with (length m + 3)%nat by lia.
        rewrite Hdrop. subst y. cbn [drop app].
        now apply strip_underscore_none, decimal_not_underscore. }
    replace (length m + 2)%nat with (S (length m + 1)) by lia.
    rewrite try_split_skip.
    2:{ replace (S (length m + 1)) with (length m + 2)%nat by lia.
        rewrite Hdrop. subst y. cbn [drop app].
        now apply strip_underscore_none, decimal_not_underscore. }
    replace (length m + 1)%nat with (S (length m + 0)) by lia.
    rewrite try_split_skip.
    2:{ replace (S (length m + 0)) with (length m + 1)%nat by lia.
        rewrite Hdrop. subst y. cbn [drop app].
        now apply strip_underscore_none, decimal_not_underscore. }
    destruct m as [|c m]; [congruence|].
    cbn [length Nat.add]. rewrite Nat.add_0_r.
    cbn [try_split].
    replace (drop (S (length m)) l) with ("_"%char :: y ++ rest).
    2:{ symmetry. pose proof (Hdrop 0%nat) as H0.
        cbn [length] in H0. rewrite Nat.add_0_r in H0. exact H0. }
    cbn [strip_literal]. rewrite Ascii.eqb_refl.
    subst y. cbn [app take length Nat.eqb forallb andb].
    rewrite H1, H2, H3, H4. cbn [andb]. subst l.
    now rewrite (take_length_app (c :: m)). }
  unfold extract_month_year. rewrite chars_str. fold l.
  assert (Hsearch : search_month_year l = Some (m, y)).
  { assert (Hhere : match_month_year l = Some (m, y)).
    { unfold match_month_year. rewrite Hspan. cbn [fst].
      rewrite length_app. cbn [length]. subst y. cbn [length].
      now replace (length m + 5)%nat with (length m + 5)%nat by lia. }
    destruct l; cbn [search_month_year]; now rewrite Hhere. }
  now rewrite Hsearch.
Qed.

Lemma extract_month_year_of_name_witness :
  extract_month_year "Januar_2025.pdf" = (Some "Januar", Some 2025, 1)
  ∧ extract_month_year "Lohn_2024" = (Some "Lohn", Some 2024, 0).
Proof.
  split.
  - apply (extract_month_year_of_name (chars "Januar") (chars "2025")
             (chars ".pdf")); try reflexivity; try discriminate.
    intros c tl [= <- _]. reflexivity.
  - apply (extract_month_year_of_name (chars "Lohn") (chars "2024") []);
      try reflexivity; discriminate.
Defined.

Lemma int_of_bound (l : list ascii) :
  forallb Py.is_decimal l = true → Py.int_of l < 10 ^ Z.of_nat (length l).
Proof.
  induction l as [|c l IH] using rev_ind; [intros _; reflexivity|].
  rewrite forallb_app. intros H. apply andb_true_iff in H as [Hl Hc].
  cbn [forallb] in Hc. rewrite andb_true_r in Hc.
  rewrite int_of_app, length_app. cbn [length].
  replace (Z.of_nat (length l + 1)) with (Z.succ (Z.of_nat (length l)))
    by lia.
  rewrite Z.pow_succ_r by lia. specialize (IH Hl).
  unfold Py.int_of at 2. cbn [fold_left].
  unfold Py.is_decimal in Hc. cbv zeta in Hc. unfold Py.digit_value.
  apply andb_true_iff in Hc as [Hc1 Hc2].
  apply Z.leb_le in Hc1, Hc2. change (10 ^ Z.of_nat 1) with 10. lia.
Qed.

Lemma month_order_range (m : string) : 0 <= month_order m <= 12.
Proof.
  unfold month_order.
  destruct (find _ MONTH_ORDER) as [kv|] eqn:E; [|lia].
  apply find_some in E as [Hin _]. cbn [MONTH_ORDER In] in Hin.
  repeat (destruct Hin as [<- | Hin]; [cbn; lia|]). destruct Hin.
Qed.

Lemma try_split_some (n : nat) (l g1 g2 : list ascii) :
  try_split n l = Some (g1, g2) →
  g1 ≠ [] ∧ length g2 = 4%nat ∧ forallb Py.is_decimal g2 = true
  ∧ ∃ rest, l = g1 ++ "_"%char :: g2 ++ rest.
Proof.
  induction n as [|n IH]; [discriminate|]. cbn [try_split].
  destruct (strip_literal ["_"%char] (drop (S n) l)) as [rest|] eqn:E;
    [|exact IH].
  cbv zeta.
  destruct ((length (take 4 rest) =? 4)%nat
            && forallb Py.is_decimal (take 4 rest)) eqn:C; [|exact IH].
  apply andb_true_iff in C as [Hlen Hdig]. apply Nat.eqb_eq in Hlen.
  apply strip_literal_app in E. cbn [app] in E.
  intros [= <- <-]. split; [|split; [exact Hlen|split; [exact Hdig|]]].
  - destruct l as [|c l]; [discriminate E | discriminate].
  - exists (drop 4 rest).
    rewrite <- (take_drop (S n) l) at 1. rewrite E.
    now rewrite (take_drop 4 rest).
Qed.

Lemma search_month_year_some (l g1 g2 : list ascii) :
  search_month_year l = Some (g1, g2) →
  g1 ≠ [] ∧ length g2 = 4%nat ∧ forallb Py.is_decimal g2 = true
  ∧ occurs (g1 ++ "_"%char :: g2) l.
Proof.
  induction l as [|c l IH]; cbn [search_month_year].
  - destruct (match_month_year []) as [g|] eqn:E; [|discriminate].
    intros [= ->]. apply try_split_some in E as (H1 & H2 & H3 & rest & Hl).
    repeat split; try assumption. exists [], rest. cbn [app].
    rewrite Hl. now rewrite <- app_assoc.
  - destruct (match_month_year (c :: l)) as [g|] eqn:E.
    + intros [= ->]. apply try_split_some in E as (H1 & H2 & H3 & rest & Hl).
      repeat split; try assumption. exists [], rest. cbn [app].
      rewrite Hl. now rewrite <- app_assoc.
    + intros H. destruct (IH H) as (H1 & H2 & H3 & a & b & ->).
      repeat split; try assumption. now exists (c :: a), b.
Qed.


(** X21: whatever the file name, [extract_month_year] gives a month number
    between 0 and 12, and either no month name and no year, with month
    number 0, or both: a month name that is not empty and a year between 0
    and 9999, such that the name, an underscore and the four digits of the
    year stand in the file name. *)
Theorem extract_month_year_range (filename : string) :
  0 <= snd (extract_month_year filename) <= 12
  ∧ (extract_month_year filename = (None, None, 0)
     ∨ ∃ m y,
         extract_month_year filename
         = (Some (str m), Some (Py.int_of y), month_order (str m))
         ∧ m ≠ [] ∧ length y = 4%nat ∧ 0 <= Py.int_of y <= 9999
         ∧ occurs (m ++ "_"%char :: y) (chars filename)).
Proof.
  unfold extract_month_year.
  destruct (search_month_year (chars filename)) as [[m y]|] eqn:E.
  - apply search_month_year_some in E as (Hm & Hlen & Hdig & Hocc).
    cbn [snd]. split; [apply month_order_range|]. right.
    exists m, y. split; [reflexivity|]. split; [exact Hm|].
    split; [exact Hlen|]. split; [|exact Hocc].
    pose proof (int_of_nonneg y Hdig). pose proof (int_of_bound y Hdig) as Hb.
    rewrite Hlen in Hb. change (10 ^ Z.of_nat 4) with 10000 in Hb. lia.
  - cbn [snd]. split; [lia | now left].
Qed.

(** ** The order in which the files are processed *)









(** ** An amount in a sub-row *)


